(** * interactions-repl: the paginators and the snippet compiler

    A shallow embedding of [interactions/ext/repl/jsk/paginators.py] and of
    [interactions/ext/repl/jsk/python/compilation.py].

    Python values are modelled as follows.
    - [str] is [string], over the 256 characters of [ascii]; [len] counts the
      characters as an [int], that is [Z].
    - [int] is [Z] (Python integers are unbounded).
    - [None]-able attributes ([prefix], [suffix]) are [option string].
    - a [list] attribute is a [list]; an attribute assignment or an in-place
      [append] is a new record in the state that is passed along. Where the
      identity of a list matters (module [Ref]) the lists are the objects of a
      heap and the attributes hold their addresses.
    - a raised exception is the [Raised] outcome, which still carries the
      state the object was left in.
    - a [while] loop takes fuel, and gives [None] when the fuel runs out.
    - a syntax tree of [ast] is a term of the types of module [Ast].
    - the body of a snippet is a function on the state of the call of
      [_repl_coroutine]: its local variables and the Scope of the executor
      (module [Exec]). *)

From Stdlib Require Import ZArith Lia List Ascii String DecimalString.
From Stdlib Require DecimalFacts DecimalPos.
From stdpp Require Import base option list strings gmap.

Local Open Scope Z_scope.

(** ** Python strings *)

Module Py.

(** [len(s)] *)
Definition len (s : string) : Z := Z.of_nat (String.length s).

(** Truth value of a string: [""] is falsy. *)
Definition truthy (s : string) : bool :=
  match s with EmptyString => false | String _ _ => true end.

(** [sep.join(ls)] *)
Definition join (sep : string) (ls : list string) : string := String.concat sep ls.

Fixpoint take (n : nat) (s : string) : string :=
  match n, s with
  | S n', String c s' => String c (take n' s')
  | _, _ => EmptyString
  end.

Fixpoint drop (n : nat) (s : string) : string :=
  match n, s with
  | S n', String _ s' => drop n' s'
  | _, _ => s
  end.

(** A slice bound is clamped the way [PySlice_AdjustIndices] does it for a
    step of 1: a negative bound counts from the end, and the result is
    clamped into [0, len(s)]. *)
Definition clamp_index (s : string) (i : Z) : nat :=
  let n := len s in
  let i := if i <? 0 then Z.max 0 (i + n) else i in
  Z.to_nat (Z.min i n).

(** [s[:stop]] *)
Definition slice_to (s : string) (stop : Z) : string := take (clamp_index s stop) s.

(** [s[start:]] *)
Definition slice_from (s : string) (start : Z) : string := drop (clamp_index s start) s.

(** Highest index [>= i] (counting the head of [s] as index [i]) at which
    [d] occurs in [s], or [-1]. *)
Fixpoint rfind_from (i : Z) (s d : string) : Z :=
  match s with
  | EmptyString => if String.prefix d EmptyString then i else -1
  | String _ s' =>
      let r := rfind_from (i + 1) s' d in
      if 0 <=? r then r else if String.prefix d s then i else -1
  end.

(** [s.rfind(d)] *)
Definition rfind (s d : string) : Z := rfind_from 0 s d.

(** [str(n)] for an [int]. *)
Definition str (n : Z) : string := NilZero.string_of_int (Z.to_int n).

(** [sum(len(p) for p in ps)] *)
Definition sum_len (ps : list string) : Z := fold_right (fun p acc => len p + acc) 0 ps.

End Py.

(** ** Exceptions *)

Inductive exn : Type :=
| RuntimeError_line_exceeds (max_page_size : Z)
    (* "Line exceeds maximum page size %s" *)
| ValueError_could_not_wrap (original_length remaining true_max_size : Z) (wrap_on : list string)
    (* "Line of length {} had sequence of {} characters (max is {}) that
       WrappedPaginator could not wrap with delimiters: {}" *)
| ValueError_page_size (page_size max_page_size : Z)
    (* "Paginator passed has too large of a page size for this interface." *)
| IndexError
| AssertionError
| ImportError (module : string)
| NameError (name : string)
| UnboundLocalError (name : string)
| AttributeError (attr : string)
| TypeError
| Exception_ (message : string).

(** An operation on an object of class [S] either returns, or raises; in both
    cases the object is left in some state. *)
Inductive outcome (S A : Type) : Type :=
| Ok (a : A) (s : S)
| Raised (e : exn) (s : S).
Arguments Ok {S A} a s.
Arguments Raised {S A} e s.

Definition state_of {S A} (o : outcome S A) : S :=
  match o with Ok _ s => s | Raised _ s => s end.

Definition bind {S A B} (m : S -> outcome S A) (k : A -> S -> outcome S B) : S -> outcome S B :=
  fun s => match m s with
           | Ok a s' => k a s'
           | Raised e s' => Raised e s'
           end.

Declare Scope py_scope.
Delimit Scope py_scope with py.
Notation "m ;; k" := (bind m (fun _ => k))
  (at level 100, k at level 200, right associativity) : py_scope.

(** ** class Paginator *)

Module Paginator.

Record t : Type := mk {
  prefix : option string;
  suffix : option string;
  max_size : Z;
  linesep : string;
  _current_page : list string;
  _count : Z;
  _pages : list string
}.

Definition set_page (self : t) (page : list string) (count : Z) : t :=
  mk (prefix self) (suffix self) (max_size self) (linesep self) page count (_pages self).

Definition set_pages (self : t) (pages : list string) : t :=
  mk (prefix self) (suffix self) (max_size self) (linesep self)
     (_current_page self) (_count self) pages.

Definition _prefix_len (self : t) : Z :=
  match prefix self with
  | Some s => if Py.truthy s then Py.len s else 0
  | None => 0
  end.

Definition _suffix_len (self : t) : Z :=
  match suffix self with
  | Some s => if Py.truthy s then Py.len s else 0
  | None => 0
  end.

Definition _linesep_len (self : t) : Z := Py.len (linesep self).

(** The open buffer right after [clear] or [close_page]. *)
Definition reset_page (self : t) : t :=
  match prefix self with
  | Some s => set_page self [s] (Py.len s + _linesep_len self)
  | None => set_page self [] 0
  end.

Definition clear (self : t) : t := set_pages (reset_page self) [].

(** [Paginator(prefix, suffix, max_size, linesep)] *)
Definition __init__ (prefix suffix : option string) (max_size : Z) (linesep : string) : t :=
  clear (mk prefix suffix max_size linesep [] 0 []).

Definition close_page (self : t) : t :=
  let page :=
    match suffix self with
    | Some s => _current_page self ++ [s]
    | None => _current_page self
    end in
  let self := set_pages (set_page self page (_count self))
                        (_pages self ++ [Py.join (linesep self) page]) in
  reset_page self.

Definition max_page_size (self : t) : Z :=
  max_size self - _prefix_len self - _suffix_len self - 2 * _linesep_len self.

Definition add_line (line : string) (empty : bool) (self : t) : outcome t unit :=
  if Py.len line >? max_page_size self then
    Raised (RuntimeError_line_exceeds (max_page_size self)) self
  else
    let self :=
      if _count self + Py.len line + _linesep_len self >? max_size self - _suffix_len self
      then close_page self else self in
    let self := set_page self (_current_page self ++ [line])
                         (_count self + (Py.len line + _linesep_len self)) in
    let self :=
      if empty
      then set_page self (_current_page self ++ [EmptyString]) (_count self + _linesep_len self)
      else self in
    Ok tt self.

(** [len(paginator)] *)
Definition __len__ (self : t) : Z :=
  let total := Py.sum_len (_pages self) in
  total + _count self.

(** The [pages] property: it returns the list and leaves the object in the
    second component. *)
Definition pages (self : t) : list string * t :=
  let self :=
    if Z.of_nat (length (_current_page self)) >? (match prefix self with None => 0 | Some _ => 1 end)
    then close_page self else self in
  (_pages self, self).

(** A call of [add_line]. *)
Record call : Type := Call { line : string; empty : bool }.

(** A sequence of [add_line] calls; the first one that raises ends it. *)
Fixpoint add_lines (calls : list call) (self : t) : outcome t unit :=
  match calls with
  | [] => Ok tt self
  | c :: calls' => (add_line (line c) (empty c) ;; add_lines calls')%py self
  end.

(** The lines a sequence of calls appends: each line, followed by a blank one
    when [empty] is set. *)
Definition added_lines (calls : list call) : list string :=
  flat_map (fun c => if empty c then [line c; EmptyString] else [line c]) calls.

(** A page as [close_page] renders it from the lines between its prefix and
    its suffix. *)
Definition render (self : t) (body : list string) : string :=
  Py.join (linesep self)
    (match prefix self with Some s => [s] | None => [] end
     ++ body ++
     match suffix self with Some s => [s] | None => [] end).

End Paginator.

(** ** class WrappedPaginator(Paginator) *)

Module WrappedPaginator.

(** The inherited attributes are the [base] object; the subclass adds three. *)
Record t : Type := mk {
  base : Paginator.t;
  wrap_on : list string;
  include_wrapped : bool;
  force_wrap : bool
}.

Definition set_base (self : t) (b : Paginator.t) : t :=
  mk b (wrap_on self) (include_wrapped self) (force_wrap self).

(** [WrappedPaginator(prefix, suffix, max_size, linesep, wrap_on=...,
    include_wrapped=..., force_wrap=...)] *)
Definition __init__ (prefix suffix : option string) (max_size : Z) (linesep : string)
    (wrap_on : list string) (include_wrapped force_wrap : bool) : t :=
  mk (Paginator.__init__ prefix suffix max_size linesep) wrap_on include_wrapped force_wrap.

(** The default [wrap_on=("\n", " ")]. *)
Definition default_wrap_on : list string := [String "010"%char EmptyString; " "%string].

(** [super().add_line(line, empty=empty)] *)
Definition super_add_line (line : string) (empty : bool) (self : t) : outcome t unit :=
  match Paginator.add_line line empty (base self) with
  | Ok a b => Ok a (set_base self b)
  | Raised e b => Raised e (set_base self b)
  end.

Definition true_max_size (self : t) : Z :=
  Paginator.max_size (base self) - Paginator._prefix_len (base self)
  - Paginator._suffix_len (base self) - 2.

(** The [for delimiter in self.wrap_on] loop up to its [break]: the first
    delimiter whose last occurrence in [search_string] is at a position
    greater than 0, with that position. *)
Fixpoint find_delimiter (delimiters : list string) (search_string : string)
    : option (Z * string) :=
  match delimiters with
  | [] => None
  | delimiter :: rest =>
      let position := Py.rfind search_string delimiter in
      if position >? 0 then Some (position, delimiter)
      else find_delimiter rest search_string
  end.

(** The [while len(line) > true_max_size] loop and the call that follows it.
    [fuel] bounds the number of times the loop condition is evaluated;
    [None] means the bound was reached with the loop still running. *)
Fixpoint wrap_loop (fuel : nat) (true_max_size original_length : Z)
    (line : string) (empty : bool) (self : t) : option (outcome t unit) :=
  match fuel with
  | O => None
  | S fuel' =>
      if Py.len line >? true_max_size then
        let search_string := Py.slice_to line (true_max_size - 1) in
        match find_delimiter (wrap_on self) search_string with
        | Some (position, delimiter) =>
            match super_add_line (Py.slice_to line position) empty self with
            | Raised e self' => Some (Raised e self')
            | Ok _ self' =>
                let line' :=
                  if include_wrapped self
                  then Py.slice_from line position
                  else Py.slice_from line (position + Py.len delimiter) in
                wrap_loop fuel' true_max_size original_length line' empty self'
            end
        | None =>
            if negb (force_wrap self) then
              Some (Raised (ValueError_could_not_wrap original_length (Py.len line)
                              true_max_size (wrap_on self)) self)
            else
              match super_add_line (Py.slice_to line (true_max_size - 1)) false self with
              | Raised e self' => Some (Raised e self')
              | Ok _ self' =>
                  wrap_loop fuel' true_max_size original_length
                    (Py.slice_from line (true_max_size - 1)) empty self'
              end
        end
      else Some (super_add_line line empty self)
  end.

Definition add_line (fuel : nat) (line : string) (empty : bool) (self : t)
    : option (outcome t unit) :=
  let true_max_size := true_max_size self in
  let original_length := Py.len line in
  wrap_loop fuel true_max_size original_length line empty self.

End WrappedPaginator.

(** ** class PaginatorInterface *)

(** A constructor either returns the new object or raises. *)
Inductive result (A : Type) : Type :=
| Returned (a : A)
| Threw (e : exn).
Arguments Returned {A} a.
Arguments Threw {A} e.

Module PaginatorInterface.

(** The attributes that the properties below read or assign. [bot], [task],
    [send_lock] and [close_exception] are event-loop objects that only the
    coroutines of the class touch; [message] is the identity of the message
    once [send_to] has sent one. *)
Record t : Type := mk {
  _display_page : Z;
  message : option Z;
  paginator : Paginator.t;
  owner : option Z;
  timeout : Z;
  delete_message : bool;
  sent_page_reactions : bool
}.

Definition set_display_page (self : t) (v : Z) : t :=
  mk v (message self) (paginator self) (owner self) (timeout self)
     (delete_message self) (sent_page_reactions self).

Definition newline : string := String "010"%char EmptyString.

(** [self.paginator.suffix or ""] *)
Definition suffix_or_empty (p : Paginator.t) : string :=
  match Paginator.suffix p with
  | Some s => if Py.truthy s then s else EmptyString
  | None => EmptyString
  end.

(** The [pages] property. *)
Definition pages (self : t) : list string :=
  let paginator_pages := Paginator._pages (paginator self) in
  if Z.of_nat (length (Paginator._current_page (paginator self))) >? 1 then
    paginator_pages ++
      [(Py.join newline (Paginator._current_page (paginator self)) +:+ newline
        +:+ suffix_or_empty (paginator self))%stdpp]
  else paginator_pages.

Definition page_count (self : t) : Z := Z.of_nat (length (pages self)).

(** The getter of [display_page]: it assigns the clamped value to
    [_display_page] and returns it. *)
Definition display_page (self : t) : Z * t :=
  let v := Z.max 0 (Z.min (page_count self - 1) (_display_page self)) in
  (v, set_display_page self v).


Definition max_page_size : Z := 2000.

(** [f"\nPage {n}/{m}"] *)
Definition footer (n m : Z) : string :=
  (newline +:+ "Page " +:+ Py.str n +:+ "/" +:+ Py.str m)%stdpp.

Definition page_size (self : t) : Z :=
  let page_count := page_count self in
  Paginator.max_size (paginator self) + Py.len (footer page_count page_count).

(** [PaginatorInterface(bot, paginator, owner=..., timeout=...,
    delete_message=...)]; the arguments are already the values that
    [kwargs.pop] yields, defaults included. The class check on [paginator]
    is the type of the argument. *)
Definition __init__ (paginator : Paginator.t) (owner : option Z) (timeout : Z)
    (delete_message : bool) : result t :=
  let self := mk 0 None paginator owner timeout delete_message false in
  if page_size self >? max_page_size
  then Threw (ValueError_page_size (page_size self) max_page_size)
  else Returned self.

(** The [send_kwargs] property: the dict [{"content": content}], and the
    object after the read of [display_page]. *)
Definition send_kwargs (self : t) : outcome t (gmap string string) :=
  let '(display_page, self) := display_page self in
  let page_num := footer (display_page + 1) (page_count self) in
  match pages self !! Z.to_nat display_page with
  | Some page => Ok {[ "content"%string := (page +:+ page_num)%stdpp ]} self
  | None => Raised IndexError self
  end.

Definition set_paginator (self : t) (p : Paginator.t) : t :=
  mk (_display_page self) (message self) p (owner self) (timeout self)
     (delete_message self) (sent_page_reactions self).

(** The coroutine [add_line] of the interface, for a paginator of class
    [Paginator]; [send_lock.set()], which only wakes the update loop, leaves
    the attributes as they are. *)
Definition add_line (line : string) (empty : bool) (self : t) : outcome t unit :=
  let '(display_page, self) := display_page self in
  let page_count := page_count self in
  match Paginator.add_line line empty (paginator self) with
  | Raised e p => Raised e (set_paginator self p)
  | Ok _ p =>
      let self := set_paginator self p in
      let new_page_count := PaginatorInterface.page_count self in
      let self :=
        if display_page + 1 =? page_count
        then set_display_page self new_page_count
        else self in
      Ok tt self
  end.

End PaginatorInterface.

(** ** compilation.py: the syntax trees of [ast] *)

Module Ast.

(** The attributes [lineno], [col_offset], [end_lineno], [end_col_offset]. *)
Record location : Type := Loc {
  lineno : Z;
  col_offset : Z;
  end_lineno : Z;
  end_col_offset : Z
}.

Inductive expr_context : Type := Load | Store | Del.

Inductive constant : Type :=
| CNone
| CBool (b : bool)
| CInt (n : Z)
| CStr (s : string).

Inductive operator : Type := Add | Sub | Mult.

#[local] Unset Elimination Schemes.

Inductive expr : Type :=
| BinOp (left : expr) (op : operator) (right : expr) (loc : location)
| Await (value : expr) (loc : location)
| Yield (value : option expr) (loc : location)
| YieldFrom (value : expr) (loc : location)
| Call (func : expr) (args : list expr) (loc : location)
| Constant (value : constant) (loc : location)
| Attribute (value : expr) (attr : string) (ctx : expr_context) (loc : location)
| Name (id : string) (ctx : expr_context) (loc : location).

Record alias : Type := Alias { name : string; asname : option string }.

Inductive stmt : Type :=
| AsyncFunctionDef (name : string) (args : list string) (body : list stmt) (loc : location)
| Return (value : option expr) (loc : location)
| Delete (targets : list expr) (loc : location)
| Assign (targets : list expr) (value : expr) (loc : location)
| While (test : expr) (body orelse : list stmt) (loc : location)
| If (test : expr) (body orelse : list stmt) (loc : location)
| Raise (exc : option expr) (loc : location)
| Try (body : list stmt) (handlers : list excepthandler) (orelse finalbody : list stmt)
      (loc : location)
| Import (names : list alias) (loc : location)
| ImportFrom (module : string) (names : list alias) (loc : location)
| Expr (value : expr) (loc : location)
| Pass (loc : location)
with excepthandler : Type :=
| ExceptHandler (type : option expr) (body : list stmt) (loc : location).

#[local] Set Elimination Schemes.

(** [ast.Module] *)
Record py_module : Type := Module_ { body : list stmt }.

(** [isinstance(e, ast.Yield)] *)
Definition is_Yield (e : expr) : bool :=
  match e with Yield _ _ => true | _ => false end.

End Ast.

Module Compilation.
Import Ast.

(** [l[-1]] together with what precedes it; [None] where Python raises
    IndexError. *)
Fixpoint unsnoc {A} (l : list A) : option (list A * A) :=
  match l with
  | [] => None
  | x :: l' =>
      match unsnoc l' with
      | None => Some ([], x)
      | Some (init, y) => Some (x :: init, y)
      end
  end.

(** [pass], on line 15 of the text of [CORO_CODE]. *)
Definition pass_stmt : stmt := Pass (Loc 15 8 15 12).

(** [_async_executor.scope.globals.update(locals())], on line 17. *)
Definition update_stmt : stmt :=
  Expr
    (Call
       (Attribute
          (Attribute
             (Attribute (Name "_async_executor" Load (Loc 17 8 17 23))
                "scope" Load (Loc 17 8 17 29))
             "globals" Load (Loc 17 8 17 37))
          "update" Load (Loc 17 8 17 44))
       [Call (Name "locals" Load (Loc 17 45 17 51)) [] (Loc 17 45 17 53)]
       (Loc 17 8 17 54))
    (Loc 17 8 17 54).

(** The tree of the text of [CORO_CODE] around its last [try] statement,
    whose four statement lists are arguments. The text starts with an empty
    line, so that [async def] is on line 2; [IMPORTER] is
    [import_expression.constants.IMPORTER], and [arg_names] are the names
    that [args] lists. *)
Definition coroutine_tree (IMPORTER : string) (arg_names : list string)
    (try_body : list stmt) (handlers : list excepthandler)
    (orelse finalbody : list stmt) : py_module :=
  Module_
    [AsyncFunctionDef "_repl_coroutine" arg_names
       [Import [Alias "asyncio" None] (Loc 3 4 3 18);
        ImportFrom "importlib" [Alias "import_module" (Some IMPORTER)]
          (Loc 4 4 4 (43 + Py.len IMPORTER));
        Import [Alias "aiohttp" None] (Loc 6 4 6 18);
        Import [Alias "interactions" None] (Loc 7 4 7 23);
        Try [Import [Alias "jishaku" None] (Loc 10 8 10 22)]
            [ExceptHandler (Some (Name "ImportError" Load (Loc 11 11 11 22)))
               [Assign [Name "jishaku" Store (Loc 12 8 12 15)]
                  (Constant CNone (Loc 12 18 12 22)) (Loc 12 8 12 22)]
               (Loc 11 4 12 22)]
            [] [] (Loc 9 4 12 22);
        Try try_body handlers orelse finalbody (Loc 14 4 17 54)]
       (Loc 2 0 17 54)].

(** The tree that [import_expression.parse(CORO_CODE.format(args), mode="exec")]
    returns. *)
Definition CORO_CODE (IMPORTER : string) (arg_names : list string) : py_module :=
  coroutine_tree IMPORTER arg_names [pass_stmt] [] [] [update_stmt].

Section WrapCode.

(** [KeywordTransformer] lives in [walkers.py]; what its [visit] returns
    for a statement or a handler ([None], a node or a list of nodes, here
    a list) is a parameter. *)
Variable visit_stmt : stmt -> list stmt.
Variable visit_handler : excepthandler -> list excepthandler.
(** [import_expression.constants.IMPORTER] *)
Variable IMPORTER : string.

(** [NodeTransformer.generic_visit] on a list-valued field. *)
Definition visit_list {A} (visit : A -> list A) (old_value : list A) : list A :=
  flat_map visit old_value.

(** [wrap_code(code, args)]: [user_code] is the tree that
    [import_expression.parse] returns for [code], and [arg_names] are the
    names that [args] lists. The parser gives every node its location, so
    that [ast.fix_missing_locations] leaves the tree as it is. *)
Definition wrap_code (user_code : py_module) (arg_names : list string)
    : result py_module :=
  let mod_ := CORO_CODE IMPORTER arg_names in
  match unsnoc (body mod_) with
  | None => Threw IndexError
  | Some (mod_init, AsyncFunctionDef name args def_body def_loc) =>
      match unsnoc def_body with
      | None => Threw IndexError
      | Some (def_init, Try try_body handlers orelse finalbody try_loc) =>
          let try_body := try_body ++ body user_code in
          (* KeywordTransformer().generic_visit(try_block) *)
          let try_body := visit_list visit_stmt try_body in
          let handlers := visit_list visit_handler handlers in
          let orelse := visit_list visit_stmt orelse in
          let finalbody := visit_list visit_stmt finalbody in
          let rebuild (try_body : list stmt) : py_module :=
            Module_ (mod_init ++
              [AsyncFunctionDef name args
                 (def_init ++ [Try try_body handlers orelse finalbody try_loc])
                 def_loc]) in
          match unsnoc try_body with
          | None => Threw IndexError
          | Some (try_init, Expr value loc) =>
              if negb (is_Yield value) then
                let yield_stmt := Yield (Some value) loc in
                let yield_expr := Expr yield_stmt loc in
                Returned (rebuild (try_init ++ [yield_expr]))
              else Returned (rebuild try_body)
          | Some (_, _) => Returned (rebuild try_body)
          end
      | Some (_, _) => Threw AssertionError
      end
  | Some (_, _) => Threw AssertionError
  end.

End WrapCode.

End Compilation.

(** ** compilation.py: running a wrapped snippet *)

Module Exec.

Inductive value : Type :=
| VNone
| VInt (n : Z)
| VStr (s : string)
| VModule (name : string)       (* an imported module *)
| VFunction (name : string)     (* a function object *)
| VExecutor                     (* an AsyncCodeExecutor of the session *)
| VObject (id : Z).             (* any other object: a message, a channel, ... *)

(** Modelled from the spec: [scope.py], which declares the class [Scope], is
    not among the sources. A Scope is a mutable pair of namespaces, the
    [globals] and the [locals] mappings, from names to values. *)
Record Scope : Type := mkScope {
  globals : gmap string value;
  locals : gmap string value
}.

(** Modelled from the spec: [Scope()], a Scope with no binding yet. *)
Definition Scope_new : Scope := mkScope ∅ ∅.

(** The state of a call of [_repl_coroutine]: the local variables of the
    call, and the Scope of the executor. The function is defined by [exec]
    with [scope.globals] as its global namespace, so that the globals of the
    function and [_async_executor.scope.globals] are one dict. *)
Record frame : Type := Frame {
  f_locals : gmap string value;
  f_scope : Scope
}.

Inductive completion (A : Type) : Type :=
| Normal (a : A)
| Abrupt (e : exn).
Arguments Normal {A} a.
Arguments Abrupt {A} e.

(** What running a piece of the function body to its end gives: the values
    it yielded on the way, how it ended, and the state it left. *)
Record run (A : Type) : Type := Run {
  yielded : list value;
  how : completion A;
  final : frame
}.
Arguments Run {A} yielded how final.
Arguments yielded {A} r.
Arguments how {A} r.
Arguments final {A} r.

Definition M (A : Type) : Type := frame -> run A.

Definition ret {A} (a : A) : M A := fun fr => Run [] (Normal a) fr.

Definition raise {A} (e : exn) : M A := fun fr => Run [] (Abrupt e) fr.

Definition bind {A B} (m : M A) (k : A -> M B) : M B :=
  fun fr =>
    let r := m fr in
    match how r with
    | Normal a =>
        let r' := k a (final r) in
        Run (yielded r ++ yielded r') (how r') (final r')
    | Abrupt e => Run (yielded r) (Abrupt e) (final r)
    end.

Declare Scope exec_scope.
Delimit Scope exec_scope with exec.
Notation "'let*' x := m 'in' k" := (bind m (fun x => k))
  (at level 10, x name, m at level 100, k at level 200) : exec_scope.
Notation "m ;; k" := (bind m (fun _ => k))
  (at level 100, k at level 200, right associativity) : exec_scope.
Local Open Scope exec_scope.

(** [x = v] for a local variable [x]. *)
Definition store_fast (x : string) (v : value) : M unit :=
  fun fr => Run [] (Normal tt) (Frame (<[x := v]> (f_locals fr)) (f_scope fr)).

(** Reading a name that the function assigns somewhere (or a parameter). *)
Definition load_fast (x : string) : M value :=
  fun fr =>
    match f_locals fr !! x with
    | Some v => Run [] (Normal v) fr
    | None => Run [] (Abrupt (UnboundLocalError x)) fr
    end.




(** [try: body finally: finalbody] *)
Definition try_finally (body finalbody : M unit) : M unit :=
  fun fr =>
    let r := body fr in
    let r' := finalbody (final r) in
    Run (yielded r ++ yielded r')
        (match how r' with
         | Normal _ => how r
         | Abrupt e => Abrupt e
         end)
        (final r').

(** [try: body except ImportError: handler] *)
Definition try_except_ImportError (body handler : M unit) : M unit :=
  fun fr =>
    let r := body fr in
    match how r with
    | Abrupt (ImportError _) =>
        let r' := handler (final r) in
        Run (yielded r ++ yielded r') (how r') (final r')
    | _ => r
    end.

Section Coroutine.

(** The modules that can be imported in the running interpreter. *)
Variable installed : string -> bool.
(** [import_expression.constants.IMPORTER] *)
Variable IMPORTER : string.

(** [import name] *)
Definition import_ (name : string) : M unit :=
  if installed name then store_fast name (VModule name)
  else raise (ImportError name).

(** [from module import name as asname] *)
Definition import_from (module name asname : string) : M unit :=
  if installed module then store_fast asname (VFunction name)
  else raise (ImportError module).

(** [_async_executor.scope.globals.update(locals())]. Every executor of a
    session is made with the Scope of the session, so that an executor
    found under the name leads to [f_scope]. *)
Definition update_globals_with_locals : M unit :=
  let* executor := load_fast "_async_executor" in
  match executor with
  | VExecutor =>
      fun fr =>
        let scope := f_scope fr in
        Run [] (Normal tt)
            (Frame (f_locals fr)
                   (mkScope (f_locals fr ∪ globals scope) (locals scope)))
  | _ => raise (AttributeError "scope")
  end.

(** The body of [_repl_coroutine] as [wrap_code] builds it from
    [CORO_CODE]; [user_code] is the meaning of the statements of the
    snippet that were put after [pass]. *)
Definition _repl_coroutine (user_code : M unit) : M unit :=
  import_ "asyncio" ;;
  import_from "importlib" "import_module" IMPORTER ;;
  import_ "aiohttp" ;;
  import_ "interactions" ;;
  try_except_ImportError (import_ "jishaku") (store_fast "jishaku" VNone) ;;
  try_finally (ret tt ;; user_code) update_globals_with_locals.

(** What [compile] makes of the tree of [wrap_code]: whether the function
    is an async generator function (its body has a [yield]), and the
    meaning of the statements of the snippet. *)
Record code_object : Type := Code {
  is_asyncgen : bool;
  user_code : M unit
}.

(** class AsyncCodeExecutor *)
Record AsyncCodeExecutor : Type := mkExecutor {
  args : list value;
  arg_names : list string;
  code : code_object;
  scope : Scope
}.

Definition __init__ (code : code_object) (scope : option Scope)
    (arg_dict : list (string * value)) : AsyncCodeExecutor :=
  mkExecutor (VExecutor :: map snd arg_dict)
             ("_async_executor"%string :: map fst arg_dict)
             code
             (match scope with Some s => s | None => Scope_new end).


(** The call of [func] on [self.args], run to its end: the call binds the
    parameters to the arguments. *)
Definition call (self : AsyncCodeExecutor) (scope : Scope) : run unit :=
  _repl_coroutine (user_code (code self))
    (Frame (list_to_map (zip (arg_names self) (args self))) scope).



End Coroutine.

End Exec.

(** ** The list objects of the paginators, with their identities

    [Paginator.pages] returns the very list that [_pages] names, and
    [PaginatorInterface.pages] copies it first. To tell the two apart the
    classes are given here a second time with their lists as objects of a
    heap: an attribute holds the address of a list, [append] changes the list
    at that address, [list(...)] and a list display allocate a new one.
    [view] reads the record of the first model off the heap. *)

Module Ref.

(** The list objects allocated so far; the address of a list is its index. *)
Abbreviation heap := (list (list string)).
Abbreviation addr := nat.

Definition alloc (l : list string) (h : heap) : addr * heap := (length h, h ++ [l]).

Definition contents (a : addr) (h : heap) : list string := default [] (h !! a).

(** [a.append(x)] *)
Definition append (a : addr) (x : string) (h : heap) : heap :=
  <[a := contents a h ++ [x]]> h.

Record Paginator : Type := mkPaginator {
  prefix : option string;
  suffix : option string;
  max_size : Z;
  linesep : string;
  _current_page : addr;
  _count : Z;
  _pages : addr
}.

Definition set_page (self : Paginator) (page : addr) (count : Z) : Paginator :=
  mkPaginator (prefix self) (suffix self) (max_size self) (linesep self)
              page count (_pages self).

Definition view (h : heap) (self : Paginator) : Paginator.t :=
  Paginator.mk (prefix self) (suffix self) (max_size self) (linesep self)
               (contents (_current_page self) h) (_count self) (contents (_pages self) h).

Definition valid (h : heap) (self : Paginator) : Prop :=
  (_current_page self < length h)%nat /\ (_pages self < length h)%nat
  /\ _current_page self <> _pages self.

(** [Paginator.close_page] *)
Definition close_page (self : Paginator) (h : heap) : Paginator * heap :=
  let h :=
    match suffix self with
    | Some s => append (_current_page self) s h
    | None => h
    end in
  let h := append (_pages self) (Py.join (linesep self) (contents (_current_page self) h)) h in
  match prefix self with
  | Some s =>
      let '(page, h) := alloc [s] h in
      (set_page self page (Py.len s + Py.len (linesep self)), h)
  | None =>
      let '(page, h) := alloc [] h in
      (set_page self page 0, h)
  end.

(** The [pages] property of [Paginator]: the address it returns is that of
    [_pages] itself. *)
Definition Paginator_pages (self : Paginator) (h : heap) : addr * Paginator * heap :=
  let '(self, h) :=
    if Z.of_nat (length (contents (_current_page self) h))
         >? (match prefix self with None => 0 | Some _ => 1 end)
    then close_page self h else (self, h) in
  (_pages self, self, h).

Record PaginatorInterface : Type := mkInterface {
  _display_page : Z;
  paginator : Paginator
}.

Definition set_display_page (self : PaginatorInterface) (v : Z) : PaginatorInterface :=
  mkInterface v (paginator self).

(** The record of the first model, the attributes that no property reads
    being given. *)
Definition view_interface (h : heap) (self : PaginatorInterface) : PaginatorInterface.t :=
  PaginatorInterface.mk (_display_page self) None (view h (paginator self)) None 7200 false false.

(** The [pages] property of [PaginatorInterface]. *)
Definition pages (self : PaginatorInterface) (h : heap) : addr * heap :=
  let p := paginator self in
  let '(paginator_pages, h) := alloc (contents (_pages p) h) h in
  if Z.of_nat (length (contents (_current_page p) h)) >? 1 then
    (paginator_pages,
     append paginator_pages
       (Py.join PaginatorInterface.newline (contents (_current_page p) h)
        +:+ PaginatorInterface.newline
        +:+ PaginatorInterface.suffix_or_empty (view h p))%stdpp h)
  else (paginator_pages, h).

Definition page_count (self : PaginatorInterface) (h : heap) : Z * heap :=
  let '(a, h) := pages self h in
  (Z.of_nat (length (contents a h)), h).

Definition display_page (self : PaginatorInterface) (h : heap)
    : Z * PaginatorInterface * heap :=
  let '(page_count, h) := page_count self h in
  let v := Z.max 0 (Z.min (page_count - 1) (_display_page self)) in
  (v, set_display_page self v, h).

Definition send_kwargs (self : PaginatorInterface) (h : heap)
    : result (gmap string string) * PaginatorInterface * heap :=
  let '(display_page, self, h) := display_page self h in
  let '(page_count, h) := page_count self h in
  let page_num := PaginatorInterface.footer (display_page + 1) page_count in
  let '(a, h) := pages self h in
  match contents a h !! Z.to_nat display_page with
  | Some page => (Returned {[ "content"%string := (page +:+ page_num)%stdpp ]}, self, h)
  | None => (Threw IndexError, self, h)
  end.

(** The reads of an interface. *)
Inductive read : Type := ReadPages | ReadPageCount | ReadDisplayPage | ReadSendKwargs.

Definition do_read (r : read) (self : PaginatorInterface) (h : heap)
    : PaginatorInterface * heap :=
  match r with
  | ReadPages => (self, snd (pages self h))
  | ReadPageCount => (self, snd (page_count self h))
  | ReadDisplayPage => let '(_, self, h) := display_page self h in (self, h)
  | ReadSendKwargs => let '(_, self, h) := send_kwargs self h in (self, h)
  end.

Fixpoint do_reads (rs : list read) (self : PaginatorInterface) (h : heap)
    : PaginatorInterface * heap :=
  match rs with
  | [] => (self, h)
  | r :: rs' => let '(self, h) := do_read r self h in do_reads rs' self h
  end.

End Ref.

(** * Invariants and auxiliary notions *)

Section PaginatorInvariants.
Import Paginator.

Definition opt_list (o : option string) : list string :=
  match o with Some s => [s] | None => [] end.

(** The attributes that the constructor fixes. *)
Definition same_config (p q : Paginator.t) : Prop :=
  prefix q = prefix p /\ suffix q = suffix p /\ max_size q = max_size p
  /\ linesep q = linesep p.

(** What a page starts with before its first line, and what it ends with
    after its last line. *)
Definition page_prefix (p : Paginator.t) : string :=
  match prefix p with Some s => (s +:+ linesep p)%stdpp | None => EmptyString end.

Definition page_suffix (p : Paginator.t) : string :=
  match suffix p with Some s => (linesep p +:+ s)%stdpp | None => EmptyString end.

(** The closed pages are the renderings of [bodies], and the open buffer
    holds the prefix and then [body]; a buffer without a line has the count
    of a fresh one. *)
Record shape (p : Paginator.t) (bodies : list (list string)) (body : list string) : Prop := {
  shape_pages : _pages p = map (render p) bodies;
  shape_page : _current_page p = opt_list (prefix p) ++ body;
  shape_count : body = [] -> _count p <= _prefix_len p + _linesep_len p;
  shape_bodies : Forall (fun b => b <> []) bodies
}.

End PaginatorInvariants.

Section PaginatorRuns.
Import Paginator.

(** The calls that change a paginator. *)
Inductive op : Type :=
| AddLine (line : string) (empty : bool)
| ClosePage.

Definition run_op (o : op) (p : Paginator.t) : outcome Paginator.t unit :=
  match o with
  | AddLine l e => add_line l e p
  | ClosePage => Ok tt (close_page p)
  end.

(** A sequence of calls; it ends at the first call that raises. *)
Fixpoint run_ops (os : list op) (p : Paginator.t) : outcome Paginator.t unit :=
  match os with
  | [] => Ok tt p
  | o :: os' => (run_op o ;; run_ops os')%py p
  end.

(** The characters of the open buffer as [_count] counts them: every entry
    with one line separator. *)
Definition buffer_chars (p : Paginator.t) : Z :=
  fold_right (fun s acc => Py.len s + _linesep_len p + acc) 0 (_current_page p).

(** The count is the number of characters of the open buffer. *)
Definition counted (p : Paginator.t) : Prop := _count p = buffer_chars p.

(** The length of the page that closing the open buffer now would append. *)
Definition rendered_len (p : Paginator.t) : Z :=
  Py.len (Py.join (linesep p) (_current_page p ++ opt_list (suffix p))).

End PaginatorRuns.

Section HeapInvariants.

(** The lists of [h] are still in [h'], as they were. *)
Definition preserved (h h' : Ref.heap) : Prop :=
  (length h <= length h')%nat /\ forall a : nat, (a < length h)%nat -> h' !! a = h !! a.

End HeapInvariants.

Section WrappedInvariants.
Import WrappedPaginator.

(** The line separator ["\r\n"]. *)
Definition CRLF : string := String "013"%char (String "010"%char EmptyString).

(** A wrapped paginator with [force_wrap] whose usable size [tms] is at
    least 2 and no more than the capacity of a line of the paginator. *)
Definition wrap_ok (tms : Z) (w : WrappedPaginator.t) : Prop :=
  true_max_size w = tms /\ 2 <= tms /\ tms <= Paginator.max_page_size (base w)
  /\ force_wrap w = true.

End WrappedInvariants.

Section ExecutorScenarios.
Import Exec.
Local Open Scope exec_scope.








End ExecutorScenarios.

Section MorePaginatorInvariants.
Import Paginator.

(** The open buffer holds no line: it is as [clear] or [close_page] left
    it. *)
Definition fresh_buffer (p : Paginator.t) : Prop :=
  _current_page p = opt_list (prefix p) /\ _count p <= _prefix_len p + _linesep_len p.

(** Every closed page has at most [max_size + k] characters, and so has the
    page that the open buffer would be closed into, unless the buffer holds
    no line. *)
Definition pages_within (k : Z) (p : Paginator.t) : Prop :=
  counted p
  /\ Forall (fun page => Py.len page <= max_size p + k) (_pages p)
  /\ (fresh_buffer p \/ rendered_len p <= max_size p + k).

End MorePaginatorInvariants.

Section MoreWrappedInvariants.
Import WrappedPaginator.

(** The strings of a list one after the other. *)
Definition concat_lines (ls : list string) : string :=
  fold_right String.append EmptyString ls.

(** How the loop of [add_line] can end for a line of which [remaining]
    characters were still to be added, with usable size [tms]: it returns,
    or a piece was longer than the capacity of a line of the paginator, which
    is then less than [tms], or no delimiter was found for what remains and
    [force_wrap] is not set. *)
Definition wrap_outcome (tms original_length remaining : Z) (w : WrappedPaginator.t)
    (r : outcome WrappedPaginator.t unit) : Prop :=
  match r with
  | Ok _ _ => True
  | Raised x _ =>
      (x = RuntimeError_line_exceeds (Paginator.max_page_size (base w))
       /\ Paginator.max_page_size (base w) < tms)
      \/ (force_wrap w = false
          /\ exists n, tms < n <= remaining
               /\ x = ValueError_could_not_wrap original_length n tms (wrap_on w))
  end.

End MoreWrappedInvariants.

(** * Properties *)

(** ** Strings *)

Section Strings.

Lemma len_nonneg (s : string) : 0 <= Py.len s.
Proof. unfold Py.len. lia. Qed.

Lemma string_length_app (s t : string) :
  String.length (s +:+ t) = (String.length s + String.length t)%nat.
Proof.
  induction s as [|c s IH]; [reflexivity|].
  change (S (String.length (s +:+ t)) = S (String.length s + String.length t)).
  by rewrite IH.
Qed.

Lemma len_app (s t : string) : Py.len (s +:+ t) = Py.len s + Py.len t.
Proof. unfold Py.len. rewrite string_length_app. lia. Qed.

Lemma truthy_len (s : string) : (if Py.truthy s then Py.len s else 0) = Py.len s.
Proof. destruct s; reflexivity. Qed.

Lemma sum_len_app (l1 l2 : list string) :
  Py.sum_len (l1 ++ l2) = Py.sum_len l1 + Py.sum_len l2.
Proof. unfold Py.sum_len. induction l1 as [|x l1 IH]; simpl; lia. Qed.

Lemma gtb_false_le (a b : Z) : (a >? b) = false -> a <= b.
Proof. rewrite Z.gtb_ltb. intros H. apply Z.ltb_ge in H. lia. Qed.

Lemma gtb_true_lt (a b : Z) : (a >? b) = true -> b < a.
Proof. rewrite Z.gtb_ltb. intros H. apply Z.ltb_lt in H. lia. Qed.

Lemma le_gtb_false (a b : Z) : a <= b -> (a >? b) = false.
Proof. intros H. rewrite Z.gtb_ltb. apply Z.ltb_ge. lia. Qed.

Lemma lt_gtb_true (a b : Z) : b < a -> (a >? b) = true.
Proof. intros H. rewrite Z.gtb_ltb. apply Z.ltb_lt. lia. Qed.

End Strings.

(** ** Paginator: pages and lines *)

Section PaginatorShape.
Import Paginator.

Lemma same_config_refl p : same_config p p.
Proof. repeat split. Qed.

Lemma same_config_trans p q r : same_config p q -> same_config q r -> same_config p r.
Proof. unfold same_config. intuition congruence. Qed.

Lemma same_config_render p q body : same_config p q -> render q body = render p body.
Proof. intros (Hp & Hs & _ & Hl). unfold render. by rewrite Hp, Hs, Hl. Qed.

Lemma same_config_max_page_size p q : same_config p q -> max_page_size q = max_page_size p.
Proof.
  intros (Hp & Hs & Hm & Hl).
  unfold max_page_size, _prefix_len, _suffix_len, _linesep_len.
  by rewrite Hp, Hs, Hm, Hl.
Qed.

Lemma close_page_config p : same_config p (close_page p).
Proof. unfold close_page, reset_page. destruct p as [[?|] ? ? ? ? ? ?]; repeat split. Qed.

Lemma shape_init prefix suffix max_size linesep :
  shape (__init__ prefix suffix max_size linesep) [] [].
Proof.
  unfold __init__, clear, reset_page. destruct prefix as [s|]; simpl.
  - split; simpl; try done.
    intros _. unfold _prefix_len, _linesep_len. simpl. rewrite truthy_len. lia.
  - split; simpl; try done.
    intros _. unfold _prefix_len, _linesep_len. simpl. pose proof (len_nonneg linesep). lia.
Qed.

Lemma shape_close_page p bodies body :
  body <> [] -> shape p bodies body -> shape (close_page p) (bodies ++ [body]) [].
Proof.
  intros Hne [Hps Hpg Hc Hb].
  assert (Hr : _pages (close_page p) = _pages p ++ [render p body]).
  { unfold close_page, reset_page, render.
    destruct p as [[pr|] [sf|] ms ls cur cnt pgs]; simpl in *; subst cur; simpl;
      by rewrite ?app_nil_r, <- ?app_assoc. }
  pose proof (close_page_config p) as Hcfg.
  split.
  - rewrite Hr, Hps, map_app. simpl.
    f_equal; [|by rewrite (same_config_render p (close_page p) body Hcfg)].
    apply map_ext. intros b. symmetry. by apply same_config_render.
  - rewrite app_nil_r. unfold close_page, reset_page.
    destruct p as [[pr|] [sf|] ms ls cur cnt pgs]; reflexivity.
  - intros _. unfold close_page, reset_page, _prefix_len, _linesep_len.
    destruct p as [[pr|] [sf|] ms ls cur cnt pgs]; simpl;
      rewrite ?truthy_len; pose proof (len_nonneg ls); lia.
  - apply Forall_app. split; [done|]. by constructor.
Qed.

Lemma add_line_shape p bodies body l e :
  shape p bodies body ->
  Py.len l <= max_page_size p ->
  exists p' bodies' body',
    add_line l e p = Ok tt p' /\ same_config p p' /\ shape p' bodies' body'
    /\ concat bodies' ++ body' = (concat bodies ++ body) ++ added_lines [Call l e].
Proof.
  intros Hsh Hle. unfold add_line.
  rewrite (le_gtb_false _ _ Hle).
  set (q := if _count p + Py.len l + _linesep_len p >? max_size p - _suffix_len p
            then close_page p else p).
  assert (Hq : same_config p q /\ exists bodies1 body1,
             shape q bodies1 body1 /\ concat bodies1 ++ body1 = concat bodies ++ body).
  { subst q. destruct (_ >? _) eqn:Hgt.
    - split; [apply close_page_config|].
      destruct body as [|b0 body].
      + exfalso. apply gtb_true_lt in Hgt.
        pose proof (shape_count _ _ _ Hsh eq_refl) as Hc.
        unfold max_page_size in Hle. pose proof (len_nonneg (linesep p)).
        unfold _linesep_len in *. lia.
      + exists (bodies ++ [b0 :: body]), []. split; [by apply shape_close_page|].
        rewrite concat_app. simpl. by rewrite !app_nil_r.
    - split; [apply same_config_refl|]. by exists bodies, body. }
  destruct Hq as (Hcfg & bodies1 & body1 & [Hps Hpg Hc Hb] & Hcat).
  clearbody q.
  exists (if e
          then set_page (set_page q (_current_page q ++ [l]) (_count q + (Py.len l + _linesep_len q)))
                 ((_current_page q ++ [l]) ++ [EmptyString])
                 (_count q + (Py.len l + _linesep_len q) + _linesep_len q)
          else set_page q (_current_page q ++ [l]) (_count q + (Py.len l + _linesep_len q))),
    bodies1, (body1 ++ added_lines [Call l e]).
  split; [by destruct e|].
  split; [destruct e; destruct Hcfg as (?&?&?&?); repeat split; simpl; done|].
  split.
  - split.
    + destruct e; simpl; rewrite Hps; apply map_ext; intros b; reflexivity.
    + destruct e; simpl; rewrite Hpg; by rewrite <- ?app_assoc.
    + intros Hnil. apply app_eq_nil in Hnil as [_ Hnil]. by destruct e.
    + done.
  - rewrite app_assoc, Hcat. done.
Qed.

End PaginatorShape.

Section PaginatorText.
Import Paginator.

Lemma string_app_assoc (a b c : string) : ((a +:+ b) +:+ c = a +:+ (b +:+ c))%stdpp.
Proof.
  induction a as [|x a IH]; [reflexivity|].
  change (String x ((a +:+ b) +:+ c) = String x (a +:+ (b +:+ c))). by rewrite IH.
Qed.

Lemma string_app_nil_r (a : string) : (a +:+ EmptyString)%stdpp = a.
Proof.
  induction a as [|x a IH]; [reflexivity|].
  change (String x (a +:+ EmptyString) = String x a). by rewrite IH.
Qed.

Lemma join_cons sep x y l :
  Py.join sep (x :: y :: l) = (x +:+ sep +:+ Py.join sep (y :: l))%stdpp.
Proof. reflexivity. Qed.

Lemma join_app sep l1 l2 :
  l1 <> [] -> l2 <> [] ->
  Py.join sep (l1 ++ l2) = (Py.join sep l1 +:+ sep +:+ Py.join sep l2)%stdpp.
Proof.
  intros H1 H2. induction l1 as [|x l1 IH]; [done|].
  destruct l1 as [|y l1].
  - destruct l2 as [|z l2]; [done|]. reflexivity.
  - change ((x :: y :: l1) ++ l2) with (x :: y :: (l1 ++ l2)).
    rewrite !join_cons. change (y :: l1 ++ l2) with ((y :: l1) ++ l2).
    rewrite IH by done. by rewrite !string_app_assoc.
Qed.

(** A page with a line is the prefix part, the lines of the page joined by
    the line separator, and the suffix part. *)
Lemma render_text p body :
  body <> [] ->
  render p body = (page_prefix p +:+ Py.join (linesep p) body +:+ page_suffix p)%stdpp.
Proof.
  intros Hne. unfold render, page_prefix, page_suffix.
  destruct (prefix p) as [s|], (suffix p) as [t|]; simpl opt_list.
  - change ([s] ++ body ++ [t]) with ([s] ++ (body ++ [t])).
    rewrite join_app by (try done; by destruct body).
    rewrite join_app by done. by rewrite !string_app_assoc.
  - rewrite app_nil_r, join_app by done. by rewrite string_app_nil_r, !string_app_assoc.
  - simpl. by rewrite join_app.
  - simpl. by rewrite app_nil_r, string_app_nil_r.
Qed.

Lemma join_concat sep bodies :
  Forall (fun b : list string => b <> []) bodies ->
  Py.join sep (map (Py.join sep) bodies) = Py.join sep (concat bodies).
Proof.
  induction 1 as [|b bodies Hb Hall IH]; [reflexivity|].
  destruct bodies as [|b' bodies].
  - simpl. by rewrite app_nil_r.
  - change (map (Py.join sep) (b :: b' :: bodies))
      with (Py.join sep b :: Py.join sep b' :: map (Py.join sep) bodies).
    rewrite join_cons.
    change (Py.join sep b' :: map (Py.join sep) bodies)
      with (map (Py.join sep) (b' :: bodies)).
    rewrite IH. change (concat (b :: b' :: bodies)) with (b ++ concat (b' :: bodies)).
    rewrite join_app; [done|done|].
    apply Forall_cons in Hall as [Hb' _]. simpl. by destruct b'.
Qed.

End PaginatorText.

Section PaginatorLines.
Import Paginator.

Lemma added_lines_cons c calls :
  added_lines (c :: calls) = added_lines [Call (line c) (empty c)] ++ added_lines calls.
Proof. unfold added_lines. simpl. by rewrite app_nil_r. Qed.

Lemma add_lines_shape calls : forall p bodies body,
  shape p bodies body ->
  Forall (fun c => Py.len (line c) <= max_page_size p) calls ->
  exists p' bodies' body',
    add_lines calls p = Ok tt p' /\ same_config p p' /\ shape p' bodies' body'
    /\ concat bodies' ++ body' = (concat bodies ++ body) ++ added_lines calls.
Proof.
  induction calls as [|c calls IH]; intros p bodies body Hsh Hall.
  - exists p, bodies, body. simpl. rewrite app_nil_r.
    split; [done|]. split; [apply same_config_refl|]. by split.
  - apply Forall_cons in Hall as [Hc Hall].
    destruct (add_line_shape p bodies body (line c) (empty c) Hsh Hc)
      as (p1 & bodies1 & body1 & Hrun & Hcfg & Hsh1 & Hcat1).
    destruct (IH p1 bodies1 body1 Hsh1) as (p2 & bodies2 & body2 & Hrun2 & Hcfg2 & Hsh2 & Hcat2).
    { eapply Forall_impl; [exact Hall|]. intros c' Hc'. simpl in Hc'.
      by rewrite (same_config_max_page_size p p1). }
    exists p2, bodies2, body2. split; [|split; [|split]].
    + simpl. unfold bind. by rewrite Hrun.
    + by apply (same_config_trans p p1 p2).
    + done.
    + rewrite Hcat2, Hcat1, (added_lines_cons c calls). by rewrite <- !app_assoc.
Qed.

Lemma pages_shape p bodies body :
  shape p bodies body ->
  exists bodies',
    fst (pages p) = map (render p) bodies' /\ concat bodies' = concat bodies ++ body
    /\ Forall (fun b => b <> []) bodies'.
Proof.
  intros Hsh. unfold pages.
  destruct (_ >? _) eqn:Hgt.
  - assert (Hne : body <> []).
    { intros ->. apply gtb_true_lt in Hgt. rewrite (shape_page _ _ _ Hsh) in Hgt.
      destruct (prefix p); simpl in Hgt; lia. }
    pose proof (shape_close_page p bodies body Hne Hsh) as Hsh'.
    exists (bodies ++ [body]). simpl. split; [|split].
    + rewrite (shape_pages _ _ _ Hsh'). apply map_ext. intros b.
      apply same_config_render, close_page_config.
    + rewrite concat_app. simpl. by rewrite app_nil_r.
    + apply Hsh'.
  - assert (He : body = []).
    { apply gtb_false_le in Hgt. rewrite (shape_page _ _ _ Hsh) in Hgt.
      rewrite List.length_app in Hgt. destruct body; [done|].
      destruct (prefix p); simpl in Hgt; lia. }
    exists bodies. simpl. subst body. rewrite app_nil_r.
    split; [apply Hsh|]. split; [done|apply Hsh].
Qed.

Lemma added_lines_no_empty calls :
  Forall (fun c => empty c = false) calls -> added_lines calls = map line calls.
Proof.
  induction 1 as [|c calls Hc _ IH]; [done|].
  rewrite added_lines_cons, IH. simpl. by rewrite Hc.
Qed.

Lemma linesep_init prefix suffix max_size linesep :
  Paginator.linesep (__init__ prefix suffix max_size linesep) = linesep.
Proof. by destruct prefix. Qed.

(** C1. Lines that are each within the capacity are all accepted, and the
    pages that the [pages] property then returns are the renderings, between
    prefix and suffix, of blocks of lines (none of them without a line)
    whose concatenation is the sequence of the lines that were added, in the
    order of the calls: every line, followed by the blank one when the call
    had [empty] set, so that without [empty] it is the sequence of the lines
    of the calls. As texts: every page is the prefix part, a text and the
    suffix part, and the texts joined by the line separator are the lines
    joined by the line separator. *)
Theorem pages_reconstruct_lines
    (prefix suffix : option string) (max_size : Z) (linesep : string) (calls : list call) :
  let p0 := __init__ prefix suffix max_size linesep in
  Forall (fun c => Py.len (line c) <= max_page_size p0) calls ->
  exists p1 bodies,
    add_lines calls p0 = Ok tt p1
    /\ fst (pages p1) = map (render p0) bodies
    /\ Forall (fun b => b <> []) bodies
    /\ concat bodies = added_lines calls
    /\ (Forall (fun c => empty c = false) calls -> concat bodies = map line calls)
    /\ fst (pages p1)
       = map (fun b => (page_prefix p0 +:+ Py.join linesep b +:+ page_suffix p0)%stdpp) bodies
    /\ Py.join linesep (map (Py.join linesep) bodies) = Py.join linesep (added_lines calls).
Proof.
  intros p0 Hall.
  destruct (add_lines_shape calls p0 [] [] (shape_init _ _ _ _) Hall)
    as (p1 & bodies1 & body1 & Hrun & Hcfg & Hsh & Hcat).
  destruct (pages_shape p1 bodies1 body1 Hsh) as (bodies & Hpages & Hcat' & Hne).
  assert (Hrender : fst (pages p1) = map (render p0) bodies).
  { rewrite Hpages. apply map_ext. intros b. by apply same_config_render. }
  assert (Heq : concat bodies = added_lines calls) by (by rewrite Hcat', Hcat).
  exists p1, bodies. split; [done|]. split; [done|]. split; [done|]. split; [done|].
  split; [intros Hemp; by rewrite Heq, added_lines_no_empty|]. split.
  - rewrite Hrender. apply map_ext_in. intros b Hb. apply list_elem_of_In in Hb.
    rewrite render_text by (by apply (proj1 (Forall_forall _ _) Hne)).
    subst p0. by rewrite linesep_init.
  - by rewrite join_concat, Heq.
Qed.

Lemma pages_reconstruct_lines_witness :
  let p0 := __init__ (Some "```"%string) (Some "```"%string) 20 PaginatorInterface.newline in
  let calls := [Call "0123456789" false; Call "ab" true; Call "cdefghijkl" false] in
  Forall (fun c => Py.len (line c) <= max_page_size p0) calls
  /\ exists p1 bodies,
    add_lines calls p0 = Ok tt p1
    /\ fst (pages p1) = map (render p0) bodies
    /\ Forall (fun b => b <> []) bodies
    /\ concat bodies = added_lines calls
    /\ (Forall (fun c => empty c = false) calls -> concat bodies = map line calls)
    /\ fst (pages p1)
       = map (fun b => (page_prefix p0 +:+ Py.join PaginatorInterface.newline b
                        +:+ page_suffix p0)%stdpp) bodies
    /\ Py.join PaginatorInterface.newline (map (Py.join PaginatorInterface.newline) bodies)
       = Py.join PaginatorInterface.newline (added_lines calls).
Proof.
  intros p0 calls.
  assert (Hall : Forall (fun c => Py.len (line c) <= max_page_size p0) calls).
  { repeat constructor; vm_compute; discriminate. }
  split; [exact Hall|].
  exact (pages_reconstruct_lines (Some "```"%string) (Some "```"%string) 20
           PaginatorInterface.newline calls Hall).
Defined.

End PaginatorLines.

(** ** Paginator: the capacity of a line *)

Section PaginatorCapacity.
Import Paginator.

Lemma add_line_accepts p l e :
  Py.len l <= max_page_size p ->
  exists p' page,
    add_line l e p = Ok tt p' /\ same_config p p'
    /\ _current_page p' = page ++ [l] ++ (if e then [EmptyString] else []).
Proof.
  intros Hle. unfold add_line. rewrite (le_gtb_false _ _ Hle).
  set (q := if _ >? _ then close_page p else p).
  assert (Hq : same_config p q).
  { subst q. destruct (_ >? _); [apply close_page_config|apply same_config_refl]. }
  clearbody q. destruct e; eexists _, (_current_page q); (split; [reflexivity|]); split;
    try (destruct Hq as (?&?&?&?); by repeat split); simpl; by rewrite <- ?app_assoc.
Qed.

Lemma add_line_rejects p l e :
  max_page_size p < Py.len l ->
  add_line l e p = Raised (RuntimeError_line_exceeds (max_page_size p)) p.
Proof. intros Hlt. unfold add_line. by rewrite (lt_gtb_true _ _ Hlt). Qed.

(** C3. A line whose length is exactly the usable capacity, [max_size]
    minus the lengths of the prefix and of the suffix and twice that of the
    line separator, is accepted and put into the open buffer as it is; a line
    one character longer raises the size error, and so does every longer
    line: the paginator is left as it was, no part of the line is kept. *)
Theorem add_line_capacity_boundary (p : Paginator.t) (l : string) (e : bool) :
  (Py.len l = max_page_size p ->
     exists p' page,
       add_line l e p = Ok tt p'
       /\ _current_page p' = page ++ [l] ++ (if e then [EmptyString] else []))
  /\ (Py.len l = max_page_size p + 1 ->
        add_line l e p = Raised (RuntimeError_line_exceeds (max_page_size p)) p)
  /\ (max_page_size p < Py.len l ->
        add_line l e p = Raised (RuntimeError_line_exceeds (max_page_size p)) p).
Proof.
  split; [|split].
  - intros Heq. destruct (add_line_accepts p l e) as (p' & page & Hrun & _ & Hpage); [lia|].
    by exists p', page.
  - intros Heq. apply add_line_rejects. lia.
  - apply add_line_rejects.
Qed.

Lemma add_line_capacity_boundary_witness :
  let p := __init__ (Some "```"%string) (Some "```"%string) 20 PaginatorInterface.newline in
  max_page_size p = 12
  /\ (exists p' page,
        add_line "abcdefghijkl" true p = Ok tt p'
        /\ _current_page p' = page ++ ["abcdefghijkl"%string] ++ [EmptyString])
  /\ add_line "abcdefghijklm" true p = Raised (RuntimeError_line_exceeds 12) p.
Proof.
  intros p. split; [reflexivity|]. split.
  - apply (proj1 (add_line_capacity_boundary p "abcdefghijkl" true)). reflexivity.
  - apply (proj1 (proj2 (add_line_capacity_boundary p "abcdefghijklm" true))). reflexivity.
Defined.

End PaginatorCapacity.

(** ** Paginator: [len] *)

Section PaginatorLen.
Import Paginator.

Lemma buffer_chars_snoc p page s cnt cnt' :
  buffer_chars (set_page p (page ++ [s]) cnt)
  = buffer_chars (set_page p page cnt') + (Py.len s + _linesep_len p).
Proof.
  unfold buffer_chars. simpl. unfold _linesep_len. simpl.
  induction page as [|x page IH]; simpl; lia.
Qed.

Lemma set_page_id p : set_page p (_current_page p) (_count p) = p.
Proof. by destruct p. Qed.

Lemma counted_reset p : counted (reset_page p).
Proof.
  unfold counted, reset_page, buffer_chars, _linesep_len.
  destruct p as [[pr|] sf ms ls cur cnt pgs]; simpl; lia.
Qed.

Lemma counted_init prefix suffix max_size linesep :
  counted (__init__ prefix suffix max_size linesep).
Proof.
  unfold counted, __init__, clear, reset_page, buffer_chars, _linesep_len.
  destruct prefix; simpl; lia.
Qed.

Lemma counted_close_page p : counted (close_page p).
Proof. unfold close_page. apply counted_reset. Qed.

Lemma counted_append p s :
  counted p ->
  counted (set_page p (_current_page p ++ [s]) (_count p + (Py.len s + _linesep_len p))).
Proof.
  unfold counted. intros Hc.
  rewrite (buffer_chars_snoc p (_current_page p) s _ (_count p)), set_page_id.
  simpl. lia.
Qed.

Lemma counted_add_line p l e p' :
  counted p -> add_line l e p = Ok tt p' -> counted p'.
Proof.
  intros Hc. unfold add_line. destruct (_ >? _); [discriminate|].
  set (q := if _ >? _ then close_page p else p).
  assert (Hq : counted q).
  { subst q. destruct (_ >? _); [apply counted_close_page|done]. }
  clearbody q. intros [= <-].
  pose proof (counted_append q l Hq) as H1.
  destruct e; [|done].
  pose proof (counted_append _ EmptyString H1) as H2.
  unfold counted, buffer_chars, _linesep_len in *. simpl in *.
  change (Py.len EmptyString) with 0 in H2. lia.
Qed.

End PaginatorLen.

Section PaginatorLenRuns.
Import Paginator.

Lemma add_line_raised p l e x p' : add_line l e p = Raised x p' -> p' = p.
Proof. unfold add_line. destruct (_ >? _); [by intros [= _ <-]|discriminate]. Qed.

Lemma counted_run_op o p : counted p -> counted (state_of (run_op o p)).
Proof.
  intros Hc. destruct o as [l e|]; simpl; [|apply counted_close_page].
  destruct (add_line l e p) as [[] p'|x p'] eqn:Hrun; simpl.
  - by apply (counted_add_line p l e).
  - by rewrite (add_line_raised _ _ _ _ _ Hrun).
Qed.

Lemma counted_run_ops os : forall p, counted p -> counted (state_of (run_ops os p)).
Proof.
  induction os as [|o os IH]; intros p Hc; [done|].
  simpl. unfold bind. pose proof (counted_run_op o p Hc) as Ho.
  destruct (run_op o p) as [[] p'|x p']; simpl in *; [by apply IH|done].
Qed.

Lemma counted_pages p : counted p -> counted (snd (pages p)).
Proof. intros Hc. unfold pages. destruct (_ >? _); [apply counted_close_page|done]. Qed.

(** C9. Whatever calls of [add_line] and [close_page] a paginator has gone
    through since it was made, [len(paginator)] is the sum of the lengths of
    its closed pages plus the count of its open buffer, the count being the
    number of characters of the entries of the buffer, each with one line
    separator; and the same holds of the paginator after the [pages]
    property was read, with the list that the property returned as the
    closed pages. *)
Theorem len_is_pages_plus_count
    (prefix suffix : option string) (max_size : Z) (linesep : string) (os : list op) :
  let p := state_of (run_ops os (__init__ prefix suffix max_size linesep)) in
  let after := pages p in
  (__len__ p = Py.sum_len (_pages p) + _count p /\ _count p = buffer_chars p)
  /\ fst after = _pages (snd after)
  /\ __len__ (snd after) = Py.sum_len (fst after) + _count (snd after)
  /\ _count (snd after) = buffer_chars (snd after).
Proof.
  intros p after.
  assert (Hc : counted p) by apply counted_run_ops, counted_init.
  split; [by split|]. split; [reflexivity|]. split; [reflexivity|].
  by apply counted_pages.
Qed.

End PaginatorLenRuns.

(** ** Paginator: the size of a page *)

Section PaginatorSize.
Import Paginator.

Lemma join_len sep l :
  Py.len (Py.join sep l)
  = match l with
    | [] => 0
    | _ :: _ => Py.sum_len l + (Z.of_nat (length l) - 1) * Py.len sep
    end.
Proof.
  unfold Py.join. induction l as [|x l IH]; [reflexivity|].
  destruct l as [|y l].
  - simpl. lia.
  - change (String.concat sep (x :: y :: l))
      with (x +:+ sep +:+ String.concat sep (y :: l)).
    rewrite !len_app, IH.
    change (Py.sum_len (x :: y :: l)) with (Py.len x + Py.sum_len (y :: l)).
    change (length (x :: y :: l)) with (S (length (y :: l))).
    rewrite Nat2Z.inj_succ. lia.
Qed.

Lemma buffer_chars_sum p :
  buffer_chars p
  = Py.sum_len (_current_page p) + Z.of_nat (length (_current_page p)) * _linesep_len p.
Proof.
  unfold buffer_chars. induction (_current_page p) as [|x l IH]; [reflexivity|].
  change (Py.sum_len (x :: l)) with (Py.len x + Py.sum_len l).
  change (length (x :: l)) with (S (length l)).
  rewrite Nat2Z.inj_succ. simpl fold_right. lia.
Qed.

(** The count of the open buffer bounds the length of the page that the
    buffer would be rendered to. *)
Lemma rendered_len_count p :
  counted p -> rendered_len p <= _count p + _suffix_len p.
Proof.
  unfold counted, rendered_len. intros ->. rewrite buffer_chars_sum, join_len.
  unfold _suffix_len, _linesep_len.
  pose proof (len_nonneg (linesep p)) as Hls.
  destruct (suffix p) as [t|]; simpl opt_list.
  - rewrite truthy_len.
    destruct (_current_page p ++ [t]) eqn:E.
    { by destruct (_current_page p). }
    rewrite <- E, sum_len_app, List.length_app. simpl. lia.
  - rewrite app_nil_r. destruct (_current_page p) as [|x l] eqn:E; [simpl; lia|].
    pose proof (len_nonneg x). simpl length. lia.
Qed.

Lemma reset_page_count p :
  _count (reset_page p)
  = match prefix p with Some _ => _prefix_len p + _linesep_len p | None => 0 end.
Proof.
  unfold reset_page, _prefix_len. destruct (prefix p); simpl; by rewrite ?truthy_len.
Qed.

Lemma prefix_len_nonneg p : 0 <= _prefix_len p.
Proof.
  unfold _prefix_len. destruct (prefix p) as [s|]; [|lia].
  rewrite truthy_len. apply len_nonneg.
Qed.

Lemma close_page_count p :
  _count (close_page p)
  = match prefix p with Some _ => _prefix_len p + _linesep_len p | None => 0 end.
Proof. unfold close_page. by rewrite reset_page_count. Qed.

Lemma close_page_suffix_len p : _suffix_len (close_page p) = _suffix_len p.
Proof. unfold _suffix_len. by destruct (close_page_config p) as (_ & -> & _). Qed.

Lemma close_page_linesep_len p : _linesep_len (close_page p) = _linesep_len p.
Proof. unfold _linesep_len. by destruct (close_page_config p) as (_ & _ & _ & ->). Qed.

Lemma close_page_max_size p : max_size (close_page p) = max_size p.
Proof. by destruct (close_page_config p) as (_ & _ & -> & _). Qed.

(** Without [empty], a line that is accepted leaves an open buffer that
    renders to at most [max_size] characters: where the line and one line
    separator do not fit any more, the page is closed first. *)
Lemma add_line_within_max_size p l p' :
  counted p -> add_line l false p = Ok tt p' ->
  _count p' + _suffix_len p' <= max_size p' /\ rendered_len p' <= max_size p'.
Proof.
  intros Hc Hrun.
  assert (Hc' : counted p') by (by apply (counted_add_line p l false)).
  assert (H : _count p' + _suffix_len p' <= max_size p');
    [|split; [done|pose proof (rendered_len_count p' Hc'); lia]].
  revert Hrun. unfold add_line. destruct (_ >? _) eqn:Hcap; [discriminate|].
  apply gtb_false_le in Hcap. unfold max_page_size in Hcap.
  destruct (_count p + _ + _ >? _) eqn:Hfit; intros [= <-].
  - change (_count (close_page p) + (Py.len l + _linesep_len (close_page p))
            + _suffix_len (close_page p) <= max_size (close_page p)).
    rewrite close_page_count, close_page_suffix_len, close_page_linesep_len, close_page_max_size.
    pose proof (len_nonneg (linesep p)). pose proof (prefix_len_nonneg p).
    unfold _linesep_len in *. destruct (prefix p); lia.
  - apply gtb_false_le in Hfit.
    change (_count p + (Py.len l + _linesep_len p) + _suffix_len p <= max_size p). lia.
Qed.

(** With [empty] the open buffer may render to more than [max_size]
    characters, by one line separator at most. *)
Lemma add_line_empty_bound p l p' :
  counted p -> add_line l true p = Ok tt p' ->
  rendered_len p' <= max_size p' + _linesep_len p'.
Proof.
  intros Hc Hrun.
  assert (Hc' : counted p') by (by apply (counted_add_line p l true)).
  pose proof (rendered_len_count p' Hc') as Hr.
  assert (H1 : exists p1, add_line l false p = Ok tt p1
                 /\ p' = set_page p1 (_current_page p1 ++ [EmptyString])
                                  (_count p1 + _linesep_len p1)).
  { revert Hrun. unfold add_line. destruct (_ >? _); [discriminate|].
    intros [= <-]. by eexists. }
  destruct H1 as (p1 & Hrun1 & ->).
  destruct (add_line_within_max_size p l p1 Hc Hrun1) as [Hb _].
  change (rendered_len (set_page p1 (_current_page p1 ++ [EmptyString])
                          (_count p1 + _linesep_len p1))
          <= max_size p1 + _linesep_len p1).
  change (rendered_len (set_page p1 (_current_page p1 ++ [EmptyString])
                          (_count p1 + _linesep_len p1))
          <= _count p1 + _linesep_len p1 + _suffix_len p1) in Hr.
  lia.
Qed.

(** After calls of [add_line] without [empty], the last of which returned,
    the open buffer renders to at most [max_size] characters. *)
Lemma add_lines_within_max_size calls : forall p p',
  counted p -> calls <> [] -> Forall (fun c => empty c = false) calls ->
  add_lines calls p = Ok tt p' -> rendered_len p' <= max_size p'.
Proof.
  induction calls as [|[l e] calls IH]; intros p p' Hc Hne Hall; [done|].
  apply Forall_cons in Hall as [He Hall]. simpl in He. subst e.
  simpl. unfold bind.
  destruct (add_line l false p) as [[] p1|x p1] eqn:Hrun; [|discriminate].
  destruct calls as [|c calls].
  - intros [= <-]. by apply (add_line_within_max_size p l p1).
  - apply IH; [by apply (counted_add_line p l false)|done|done].
Qed.

(** When the line and one line separator would take the count past
    [max_size] minus the length of the suffix, the open buffer is closed
    into a page first, and the line starts the new buffer. *)
Lemma add_line_closes_first p l e :
  Py.len l <= max_page_size p ->
  max_size p - _suffix_len p < _count p + Py.len l + _linesep_len p ->
  exists p',
    add_line l e p = Ok tt p'
    /\ _pages p' = _pages p ++ [Py.join (linesep p) (_current_page p ++ opt_list (suffix p))]
    /\ _current_page p'
       = opt_list (prefix p) ++ [l] ++ (if e then [EmptyString] else []).
Proof.
  intros Hcap Hfit. unfold add_line.
  rewrite (le_gtb_false _ _ Hcap), (lt_gtb_true _ _ Hfit).
  eexists. split; [reflexivity|].
  unfold close_page, reset_page.
  destruct p as [[pr|] [sf|] ms ls cur cnt pgs]; destruct e; simpl;
    by rewrite ?app_nil_r.
Qed.

(** C2, where the code departs from it. With [max_size = 20] and the default
    prefix, suffix and line separator the capacity of a line is 12; a line of
    12 characters added with [empty] set is accepted, and the open buffer
    then renders to the page that [pages] returns, of 21 characters. *)
Theorem empty_line_exceeds_max_size :
  let p0 := __init__ (Some "```"%string) (Some "```"%string) 20 PaginatorInterface.newline in
  exists p1,
    Py.len "abcdefghijkl" = max_page_size p0
    /\ add_line "abcdefghijkl" true p0 = Ok tt p1
    /\ max_size p1 = 20
    /\ rendered_len p1 = 21
    /\ map Py.len (fst (pages p1)) = [21].
Proof. intros p0. eexists. repeat split. Qed.

End PaginatorSize.

(** ** WrappedPaginator: lines that no delimiter wraps *)

Section WrappedNoDelimiter.
Import WrappedPaginator.

(** Without [force_wrap], a line that is too long and that no delimiter
    wraps raises the error that names the length of the line, the length of
    what remains of it, and the usable size. On the first round of the loop
    the two lengths are the same. *)
Lemma add_line_could_not_wrap w l e fuel :
  true_max_size w < Py.len l ->
  find_delimiter (wrap_on w) (Py.slice_to l (true_max_size w - 1)) = None ->
  force_wrap w = false ->
  add_line (S fuel) l e w
  = Some (Raised (ValueError_could_not_wrap (Py.len l) (Py.len l) (true_max_size w)
                    (wrap_on w)) w).
Proof.
  intros Hlen Hfind Hforce. unfold add_line. simpl.
  by rewrite (lt_gtb_true _ _ Hlen), Hfind, Hforce.
Qed.

(** C4, where the code departs from it. The line separator is ["\r\n"], and
    [max_size] is 20 with the default prefix and suffix: the usable size of
    the wrapped paginator is 12, the capacity of a line of the paginator is
    10. A line of 20 letters has no delimiter; with [force_wrap] it is cut
    at 11 characters, and the piece is refused with the size error. *)
Theorem force_wrap_raises_with_long_linesep (fuel : nat) :
  let w := __init__ (Some "```"%string) (Some "```"%string) 20 CRLF
             default_wrap_on true true in
  let l := "abcdefghijklmnopqrst"%string in
  true_max_size w = 12
  /\ Paginator.max_page_size (base w) = 10
  /\ Py.len l = 20
  /\ find_delimiter (wrap_on w) (Py.slice_to l (true_max_size w - 1)) = None
  /\ Py.len (Py.slice_to l (true_max_size w - 1)) = 11
  /\ add_line (S fuel) l false w = Some (Raised (RuntimeError_line_exceeds 10) w).
Proof. repeat split. Qed.

End WrappedNoDelimiter.

(** ** Slices and [rfind] *)

Section Slices.

Lemma take_length n s : String.length (Py.take n s) = Nat.min n (String.length s).
Proof.
  revert s. induction n as [|n IH]; intros [|c s]; try reflexivity.
  change (S (String.length (Py.take n s)) = Nat.min (S n) (S (String.length s))).
  rewrite IH. lia.
Qed.

Lemma drop_length n s : String.length (Py.drop n s) = (String.length s - n)%nat.
Proof.
  revert s. induction n as [|n IH]; intros [|c s]; try reflexivity.
  change (String.length (Py.drop n s) = (S (String.length s) - S n)%nat).
  rewrite IH. lia.
Qed.

Lemma take_drop n s : (Py.take n s +:+ Py.drop n s)%stdpp = s.
Proof.
  revert s. induction n as [|n IH]; intros [|c s]; try reflexivity.
  change (String c (Py.take n s +:+ Py.drop n s) = String c s). by rewrite IH.
Qed.

Lemma clamp_index_nonneg s k : 0 <= k -> Py.clamp_index s k = Z.to_nat (Z.min k (Py.len s)).
Proof.
  intros Hk. unfold Py.clamp_index.
  destruct (k <? 0) eqn:E; [apply Z.ltb_lt in E; lia|done].
Qed.

Lemma len_slice_to s k : 0 <= k -> Py.len (Py.slice_to s k) = Z.min k (Py.len s).
Proof.
  intros Hk. unfold Py.slice_to. rewrite clamp_index_nonneg by done.
  unfold Py.len. rewrite take_length. lia.
Qed.

Lemma len_slice_from s k : 0 <= k -> Py.len (Py.slice_from s k) = Py.len s - Z.min k (Py.len s).
Proof.
  intros Hk. unfold Py.slice_from. rewrite clamp_index_nonneg by done.
  unfold Py.len. rewrite drop_length. lia.
Qed.

Lemma slice_to_from s k : (Py.slice_to s k +:+ Py.slice_from s k)%stdpp = s.
Proof. apply take_drop. Qed.

Lemma rfind_from_le s d : forall i, 0 <= i -> Py.rfind_from i s d <= i + Py.len s.
Proof.
  induction s as [|c s IH]; intros i Hi.
  - change (Py.len EmptyString) with 0. destruct d; simpl; lia.
  - specialize (IH (i + 1) ltac:(lia)).
    assert (Py.len (String c s) = 1 + Py.len s) as ->.
    { unfold Py.len. change (String.length (String c s)) with (S (String.length s)). lia. }
    change (Py.rfind_from i (String c s) d)
      with (if 0 <=? Py.rfind_from (i + 1) s d then Py.rfind_from (i + 1) s d
            else if String.prefix d (String c s) then i else -1).
    pose proof (len_nonneg s).
    destruct (0 <=? _); [lia|]. destruct (String.prefix d _); lia.
Qed.

Lemma rfind_le s d : Py.rfind s d <= Py.len s.
Proof. unfold Py.rfind. pose proof (rfind_from_le s d 0). lia. Qed.

Lemma find_delimiter_position ds s position d :
  WrappedPaginator.find_delimiter ds s = Some (position, d) -> 0 < position <= Py.len s.
Proof.
  induction ds as [|d0 ds IH]; simpl; [discriminate|].
  destruct (_ >? 0) eqn:E.
  - intros [= <- <-]. apply gtb_true_lt in E. pose proof (rfind_le s d0). lia.
  - apply IH.
Qed.

Lemma find_delimiter_empty ds : WrappedPaginator.find_delimiter ds EmptyString = None.
Proof.
  induction ds as [|d ds IH]; [reflexivity|].
  destruct d; simpl; exact IH.
Qed.

End Slices.

Section RfindSpec.

(** [rfind] is the highest index at which the delimiter occurs, and -1 when
    it occurs nowhere; an occurrence at index [k] is one of [d] at the start
    of [s[k:]]. *)
Lemma rfind_from_spec s d : forall i, 0 <= i ->
  (Py.rfind_from i s d = -1
   /\ forall k, (k <= String.length s)%nat -> String.prefix d (Py.drop k s) = false)
  \/ (exists k, (k <= String.length s)%nat
        /\ Py.rfind_from i s d = i + Z.of_nat k
        /\ String.prefix d (Py.drop k s) = true
        /\ forall j, (k < j <= String.length s)%nat -> String.prefix d (Py.drop j s) = false).
Proof.
  induction s as [|c s IH]; intros i Hi.
  - change (Py.rfind_from i EmptyString d)
      with (if String.prefix d EmptyString then i else -1).
    destruct (String.prefix d EmptyString) eqn:E.
    + right. exists 0%nat. repeat split; [simpl; lia|lia|done|].
      intros j Hj. simpl in Hj. lia.
    + left. split; [done|]. intros k Hk. simpl in Hk.
      replace k with 0%nat by lia. done.
  - change (Py.rfind_from i (String c s) d)
      with (if 0 <=? Py.rfind_from (i + 1) s d then Py.rfind_from (i + 1) s d
            else if String.prefix d (String c s) then i else -1).
    change (String.length (String c s)) with (S (String.length s)).
    destruct (IH (i + 1) ltac:(lia)) as [[Hr Hnone]|(k & Hk & Hr & Hat & Hlater)].
    + rewrite Hr. change (0 <=? -1) with false. cbv iota.
      destruct (String.prefix d (String c s)) eqn:E.
      * right. exists 0%nat. repeat split; [lia|lia|done|].
        intros [|j] Hj; [lia|]. apply Hnone. lia.
      * left. split; [done|]. intros [|k] Hk; [done|]. apply Hnone. lia.
    + rewrite Hr. rewrite (proj2 (Z.leb_le 0 _)) by lia.
      right. exists (S k). repeat split; [lia|lia|done|].
      intros [|j] Hj; [lia|]. apply Hlater. lia.
Qed.

Lemma find_delimiter_None ds s :
  WrappedPaginator.find_delimiter ds s = None <-> Forall (fun d => Py.rfind s d <= 0) ds.
Proof.
  induction ds as [|d ds IH]; simpl; [by split|].
  destruct (_ >? 0) eqn:E.
  - apply gtb_true_lt in E. split; [discriminate|].
    intros H. apply Forall_cons in H as [H _]. lia.
  - apply gtb_false_le in E. rewrite IH. split.
    + intros H. by constructor.
    + intros H. by apply Forall_cons in H as [_ H].
Qed.

End RfindSpec.

(** ** WrappedPaginator: forced wrapping *)

Section WrappedForce.
Import WrappedPaginator.

Lemma true_max_size_set_base w b :
  same_config (base w) b -> true_max_size (set_base w b) = true_max_size w.
Proof.
  intros (Hp & Hs & Hm & _).
  unfold true_max_size, Paginator._prefix_len, Paginator._suffix_len. simpl.
  by rewrite Hp, Hs, Hm.
Qed.

Lemma wrap_ok_set_base tms w b :
  wrap_ok tms w -> same_config (base w) b -> wrap_ok tms (set_base w b).
Proof.
  intros (Ht & H2 & Hcap & Hf) Hcfg. unfold wrap_ok.
  rewrite true_max_size_set_base by done. simpl.
  by rewrite (same_config_max_page_size (base w) b).
Qed.

Lemma super_add_line_ok w l e :
  Py.len l <= Paginator.max_page_size (base w) ->
  exists b,
    super_add_line l e w = Ok tt (set_base w b)
    /\ same_config (base w) b
    /\ Paginator.add_line l e (base w) = Ok tt b.
Proof.
  intros Hle. destruct (add_line_accepts (base w) l e Hle) as (b & page & Hrun & Hcfg & _).
  exists b. unfold super_add_line. by rewrite Hrun.
Qed.

(** With [force_wrap], a line separator of at most one character and a
    usable size of at least 2, the loop ends for every line: the line goes
    to the paginator in pieces, each within the capacity of a line. *)
Lemma wrap_loop_succeeds n : forall l e w tms orig,
  (String.length l <= n)%nat -> wrap_ok tms w ->
  exists fuel pieces b,
    wrap_loop fuel tms orig l e w = Some (Ok tt (set_base w b))
    /\ same_config (base w) b
    /\ Paginator.add_lines pieces (base w) = Ok tt b
    /\ Forall (fun c => Py.len (Paginator.line c) <= Paginator.max_page_size (base w)) pieces.
Proof.
  induction n as [|n IH]; intros l e w tms orig Hn Hok;
    pose proof Hok as (Ht & H2 & Hcap & Hforce);
    destruct (Py.len l >? tms) eqn:Hlong.
  - apply gtb_true_lt in Hlong. unfold Py.len in Hlong. lia.
  - apply gtb_false_le in Hlong.
    destruct (super_add_line_ok w l e) as (b & Hrun & Hcfg & Hadd); [lia|].
    exists 1%nat, [Paginator.Call l e], b. simpl. rewrite (le_gtb_false _ _ Hlong).
    split; [by rewrite Hrun|]. split; [done|]. split.
    + unfold bind. by rewrite Hadd.
    + constructor; [simpl; lia|done].
  - apply gtb_true_lt in Hlong.
    assert (Hstep : forall piece e' l',
               Py.len piece <= tms - 1 -> (String.length l' < String.length l)%nat ->
               exists w1 fuel pieces b,
                 super_add_line piece e' w = Ok tt w1
                 /\ wrap_loop fuel tms orig l' e w1 = Some (Ok tt (set_base w b))
                 /\ same_config (base w) b
                 /\ Paginator.add_lines pieces (base w) = Ok tt b
                 /\ Forall (fun c => Py.len (Paginator.line c)
                                     <= Paginator.max_page_size (base w)) pieces).
    { intros piece e' l' Hpiece Hl'.
      destruct (super_add_line_ok w piece e') as (b1 & Hrun1 & Hcfg1 & Hadd1); [lia|].
      destruct (IH l' e (set_base w b1) tms orig) as (fuel & pieces & b & Hloop & Hcfg & Hadd & Hall);
        [lia|by apply wrap_ok_set_base|].
      exists (set_base w b1), fuel, (Paginator.Call piece e' :: pieces), b.
      split; [done|]. split; [done|]. simpl in Hcfg, Hadd, Hall.
      split; [by apply (same_config_trans (base w) b1 b)|]. split.
      - simpl. unfold bind. by rewrite Hadd1.
      - constructor; [simpl; lia|].
        eapply Forall_impl; [exact Hall|]. intros c Hc. simpl in Hc.
        by rewrite <- (same_config_max_page_size (base w) b1). }
    pose proof (len_nonneg l) as Hl0.
    destruct (find_delimiter (wrap_on w) (Py.slice_to l (tms - 1))) as [[position d]|] eqn:Hfind.
    + pose proof (find_delimiter_position _ _ _ _ Hfind) as Hpos.
      rewrite len_slice_to in Hpos by lia.
      destruct (Hstep (Py.slice_to l position) e
                  (if include_wrapped w then Py.slice_from l position
                   else Py.slice_from l (position + Py.len d)))
        as (w1 & fuel & pieces & b & Hrun & Hloop & Hrest).
      { rewrite len_slice_to by lia. lia. }
      { pose proof (len_nonneg d).
        destruct (include_wrapped w).
        - pose proof (len_slice_from l position ltac:(lia)) as Hs.
          unfold Py.len in *. lia.
        - pose proof (len_slice_from l (position + Py.len d) ltac:(lia)) as Hs.
          unfold Py.len in *. lia. }
      exists (S fuel), pieces, b. split; [|done].
      simpl. by rewrite (lt_gtb_true _ _ Hlong), Hfind, Hrun.
    + destruct (Hstep (Py.slice_to l (tms - 1)) false (Py.slice_from l (tms - 1)))
        as (w1 & fuel & pieces & b & Hrun & Hloop & Hrest).
      { rewrite len_slice_to by lia. lia. }
      { pose proof (len_slice_from l (tms - 1) ltac:(lia)) as Hs. unfold Py.len in *. lia. }
      exists (S fuel), pieces, b. split; [|done].
      simpl. by rewrite (lt_gtb_true _ _ Hlong), Hfind, Hforce, Hrun.
  - apply gtb_false_le in Hlong.
    destruct (super_add_line_ok w l e) as (b & Hrun & Hcfg & Hadd); [lia|].
    exists 1%nat, [Paginator.Call l e], b. simpl. rewrite (le_gtb_false _ _ Hlong).
    split; [by rewrite Hrun|]. split; [done|]. split.
    + unfold bind. by rewrite Hadd.
    + constructor; [simpl; lia|done].
Qed.

End WrappedForce.

Section WrappedForceAddLine.
Import WrappedPaginator.

Lemma slice_to_zero l : Py.slice_to l 0 = EmptyString.
Proof.
  unfold Py.slice_to. rewrite clamp_index_nonneg by lia.
  pose proof (len_nonneg l). replace (Z.min 0 (Py.len l)) with 0 by lia.
  by destruct l.
Qed.

Lemma slice_from_zero l : Py.slice_from l 0 = l.
Proof.
  unfold Py.slice_from. rewrite clamp_index_nonneg by lia.
  pose proof (len_nonneg l). replace (Z.min 0 (Py.len l)) with 0 by lia.
  by destruct l.
Qed.

(** With [force_wrap], a line separator of at most one character and a
    usable size of at least 2, [add_line] returns for every line; what it
    does to the paginator is what adding the pieces one by one does, and
    every piece is within the capacity of a line. *)
Lemma force_wrap_succeeds w l e :
  Py.len (Paginator.linesep (base w)) <= 1 ->
  2 <= true_max_size w ->
  force_wrap w = true ->
  exists fuel pieces b,
    add_line fuel l e w = Some (Ok tt (set_base w b))
    /\ Paginator.add_lines pieces (base w) = Ok tt b
    /\ Forall (fun c => Py.len (Paginator.line c) <= Paginator.max_page_size (base w)) pieces.
Proof.
  intros Hls H2 Hforce.
  destruct (wrap_loop_succeeds (String.length l) l e w (true_max_size w) (Py.len l))
    as (fuel & pieces & b & Hloop & _ & Hadd & Hall); [lia| |by exists fuel, pieces, b].
  split; [done|]. split; [done|]. split; [|done].
  unfold true_max_size, Paginator.max_page_size, Paginator._linesep_len. lia.
Qed.

(** With a usable size of 1 the forced cut takes no character off the line,
    and the loop does not end. *)
Lemma force_wrap_loops fuel : forall w l e orig,
  true_max_size w = 1 -> 0 <= Paginator.max_page_size (base w) ->
  force_wrap w = true -> 1 < Py.len l ->
  wrap_loop fuel 1 orig l e w = None.
Proof.
  induction fuel as [|fuel IH]; intros w l e orig Ht Hcap Hforce Hlen; [reflexivity|].
  simpl. rewrite (lt_gtb_true _ _ Hlen).
  change (1 - 1) with 0. rewrite slice_to_zero, find_delimiter_empty, Hforce. simpl.
  destruct (super_add_line_ok w EmptyString false) as (b & Hrun & Hcfg & _); [done|].
  rewrite Hrun, slice_from_zero.
  apply IH; try done.
  - by rewrite true_max_size_set_base.
  - simpl. by rewrite (same_config_max_page_size (base w) b).
Qed.

Lemma force_wrap_never_returns (fuel : nat) :
  let w := __init__ (Some "```"%string) (Some "```"%string) 9 PaginatorInterface.newline
             default_wrap_on true true in
  true_max_size w = 1 /\ add_line fuel "ab" false w = None.
Proof. split; [reflexivity|]. by apply force_wrap_loops. Qed.

End WrappedForceAddLine.

(** ** PaginatorInterface: the displayed page *)

Section DisplayPage.
Import PaginatorInterface.

Lemma page_count_nonneg i : 0 <= page_count i.
Proof. unfold page_count. lia. Qed.




End DisplayPage.

(** ** The decimal representation of a page number *)

Section DecimalLength.

Lemma string_of_uint_length d :
  String.length (NilEmpty.string_of_uint d) = Decimal.nb_digits d.
Proof. induction d; simpl; congruence. Qed.

Lemma usize_nb_digits d :
  DecimalPos.Unsigned.usize d = N.of_nat (Decimal.nb_digits d).
Proof. induction d; simpl Decimal.nb_digits; simpl DecimalPos.Unsigned.usize; lia. Qed.

Lemma of_lu_upper d :
  (DecimalPos.Unsigned.of_lu d < 10 ^ DecimalPos.Unsigned.usize d)%N.
Proof.
  induction d; simpl DecimalPos.Unsigned.of_lu; simpl DecimalPos.Unsigned.usize;
    rewrite ?N.pow_succ_r'; simpl; lia.
Qed.

Lemma of_lu_lower d :
  DecimalFacts.nztail d = d -> d <> Decimal.Nil ->
  (10 ^ N.pred (DecimalPos.Unsigned.usize d) <= DecimalPos.Unsigned.of_lu d)%N.
Proof.
  induction d as [|d IH|d IH|d IH|d IH|d IH|d IH|d IH|d IH|d IH|d IH];
    intros Hn Hne; [done|..];
    simpl DecimalPos.Unsigned.usize; rewrite N.pred_succ;
    simpl DecimalPos.Unsigned.of_lu;
    (destruct (Decimal.uint_eq_dec d Decimal.Nil) as [->|Hd];
     [simpl in *; try discriminate; lia|]);
    (assert (Hn' : DecimalFacts.nztail d = d)
       by (simpl in Hn; destruct (DecimalFacts.nztail d); congruence));
    specialize (IH Hn' Hd);
    (assert (Hs : DecimalPos.Unsigned.usize d
                  = N.succ (N.pred (DecimalPos.Unsigned.usize d)))
       by (destruct d; [done|..]; simpl DecimalPos.Unsigned.usize; lia));
    rewrite Hs, N.pow_succ_r'; lia.
Qed.

Lemma to_little_uint_value p :
  DecimalPos.Unsigned.of_lu (Pos.to_little_uint p) = N.pos p.
Proof.
  rewrite <- (DecimalPos.Unsigned.of_to p). unfold Pos.to_uint.
  by rewrite DecimalPos.Unsigned.of_lu_rev.
Qed.

Lemma to_little_uint_nonnil p : Pos.to_little_uint p <> Decimal.Nil.
Proof.
  intros E. pose proof (to_little_uint_value p) as H. rewrite E in H. discriminate.
Qed.

Lemma to_little_uint_norm p :
  DecimalFacts.nztail (Pos.to_little_uint p) = Pos.to_little_uint p.
Proof.
  pose proof (DecimalPos.Unsigned.to_of_lu (Pos.to_little_uint p)) as H.
  rewrite to_little_uint_value in H. simpl in H. unfold DecimalFacts.lnorm in H.
  destruct (DecimalFacts.nztail (Pos.to_little_uint p)) eqn:E; try congruence.
  pose proof (to_little_uint_value p) as Hv. rewrite H in Hv. discriminate.
Qed.

Lemma nb_digits_mono (p q : positive) :
  (p <= q)%positive ->
  (Decimal.nb_digits (Pos.to_uint p) <= Decimal.nb_digits (Pos.to_uint q))%nat.
Proof.
  intros Hle. unfold Pos.to_uint. rewrite !DecimalFacts.nb_digits_rev.
  pose proof (of_lu_upper (Pos.to_little_uint q)) as Hup.
  pose proof (of_lu_lower _ (to_little_uint_norm p) (to_little_uint_nonnil p)) as Hlo.
  rewrite to_little_uint_value in Hup, Hlo.
  rewrite !usize_nb_digits in *.
  destruct (le_lt_dec (Decimal.nb_digits (Pos.to_little_uint p))
                      (Decimal.nb_digits (Pos.to_little_uint q))) as [|Hlt]; [done|].
  exfalso.
  assert (Hpow : (10 ^ N.of_nat (Decimal.nb_digits (Pos.to_little_uint q))
                  <= 10 ^ N.pred (N.of_nat (Decimal.nb_digits (Pos.to_little_uint p))))%N).
  { apply N.pow_le_mono_r; lia. }
  lia.
Qed.

Lemma str_nonneg_length (n : Z) :
  0 <= n ->
  String.length (Py.str n)
  = match n with Z.pos p => Decimal.nb_digits (Pos.to_uint p) | _ => 1%nat end.
Proof.
  intros Hn. destruct n as [|p|p]; [reflexivity| |lia].
  unfold Py.str. simpl. unfold NilZero.string_of_uint.
  pose proof (DecimalPos.Unsigned.to_uint_nonnil p) as Hne.
  destruct (Pos.to_uint p) eqn:E; [done|..]; rewrite <- E at 1;
    rewrite <- string_of_uint_length; by rewrite E.
Qed.

Lemma str_len_mono (n m : Z) : 0 <= n <= m -> Py.len (Py.str n) <= Py.len (Py.str m).
Proof.
  intros [Hn Hm]. unfold Py.len.
  rewrite (str_nonneg_length n), (str_nonneg_length m) by lia.
  destruct n as [|p|p]; [|destruct m as [|q|q]; [lia| |lia]|lia].
  - destruct m as [|q|q]; [lia| |lia].
    pose proof (DecimalPos.Unsigned.to_uint_nonnil q) as Hne.
    destruct (Pos.to_uint q); [done|..]; simpl; lia.
  - pose proof (nb_digits_mono p q). lia.
Qed.

End DecimalLength.

(** ** PaginatorInterface: the check of the constructor *)

Section InterfaceConstruction.
Import PaginatorInterface.

Lemma footer_len n m : Py.len (footer n m) = 7 + Py.len (Py.str n) + Py.len (Py.str m).
Proof.
  unfold footer. rewrite !len_app.
  change (Py.len newline) with 1. change (Py.len "Page ") with 5.
  change (Py.len "/") with 1. lia.
Qed.

Lemma footer_longest (n c : Z) :
  0 <= n <= c -> Py.len (footer n c) <= Py.len (footer c c).
Proof. intros H. rewrite !footer_len. pose proof (str_len_mono n c H). lia. Qed.

(** C8. The constructor raises, with the page-size error, exactly when
    [max_size] of the paginator plus the length of the footer
    ["\nPage c/c"], [c] being the number of pages of the paginator as the
    interface counts them at that moment, exceeds 2000; otherwise it returns
    the interface, for which no message has been sent yet. That footer is
    the longest one among the footers ["\nPage n/c"] of the pages [n] up to
    [c]. *)
Theorem init_raises_iff_page_size_exceeds
    (paginator : Paginator.t) (owner : option Z) (timeout : Z) (delete_message : bool) :
  let self := mk 0 None paginator owner timeout delete_message false in
  let c := page_count self in
  let size := Paginator.max_size paginator + Py.len (footer c c) in
  (2000 < size <->
     __init__ paginator owner timeout delete_message = Threw (ValueError_page_size size 2000))
  /\ (size <= 2000 <-> __init__ paginator owner timeout delete_message = Returned self)
  /\ (forall n, 0 <= n <= c -> Py.len (footer n c) <= Py.len (footer c c)).
Proof.
  intros self c size. unfold __init__. fold self.
  change (page_size self) with size. change max_page_size with 2000.
  split; [|split].
  - destruct (size >? 2000) eqn:Hgt.
    + apply gtb_true_lt in Hgt. by split.
    + apply gtb_false_le in Hgt. split; [lia|discriminate].
  - destruct (size >? 2000) eqn:Hgt.
    + apply gtb_true_lt in Hgt. split; [lia|discriminate].
    + apply gtb_false_le in Hgt. by split.
  - intros n Hn. by apply footer_longest.
Qed.

End InterfaceConstruction.

(** ** PaginatorInterface: reading does not change the paginator *)

Section InterfaceReads.
Import Ref.

Lemma preserved_refl h : preserved h h.
Proof. by split. Qed.

Lemma preserved_trans h1 h2 h3 : preserved h1 h2 -> preserved h2 h3 -> preserved h1 h3.
Proof.
  intros [Hl1 H1] [Hl2 H2]. split; [lia|].
  intros a Ha. rewrite H2 by lia. by apply H1.
Qed.

Lemma preserved_contents h h' a :
  preserved h h' -> (a < length h)%nat -> contents a h' = contents a h.
Proof. intros [_ H] Ha. unfold contents. by rewrite H. Qed.

Lemma preserved_alloc l h : preserved h (snd (alloc l h)).
Proof.
  unfold alloc. simpl. split; [rewrite List.length_app; lia|].
  intros a Ha. by apply lookup_app_l.
Qed.

Lemma preserved_append_fresh a x h h0 :
  preserved h0 h -> (length h0 <= a)%nat -> preserved h0 (append a x h).
Proof.
  intros [Hl H] Ha. unfold append. split; [rewrite length_insert; lia|].
  intros b Hb. rewrite list_lookup_insert_ne by lia. by apply H.
Qed.

Lemma contents_alloc l h : contents (length h) (snd (alloc l h)) = l.
Proof.
  unfold contents, alloc. simpl.
  by rewrite lookup_app_r, Nat.sub_diag by lia.
Qed.

Lemma contents_append a x h :
  (a < length h)%nat -> contents a (append a x h) = contents a h ++ [x].
Proof. intros Ha. unfold append, contents at 1. by rewrite list_lookup_insert_eq. Qed.

Lemma preserved_view h h' p :
  preserved h h' -> valid h p -> view h' p = view h p.
Proof.
  intros Hp (Hc & Hpg & _). unfold view.
  by rewrite !(preserved_contents h h') by done.
Qed.

Lemma pages_preserved i h : preserved h (snd (pages i h)).
Proof.
  unfold pages.
  pose proof (preserved_alloc (contents (_pages (paginator i)) h) h) as Ha.
  unfold alloc in *. simpl in *. destruct (_ >? _); simpl; [|done].
  by apply preserved_append_fresh.
Qed.

(** The list that the property returns is the one of the first model. *)
Lemma pages_view i h :
  valid h (paginator i) ->
  contents (fst (pages i h)) (snd (pages i h))
  = PaginatorInterface.pages (view_interface h i).
Proof.
  intros Hv. pose proof Hv as (Hc & Hpg & _).
  unfold pages, PaginatorInterface.pages.
  pose proof (preserved_alloc (contents (_pages (paginator i)) h) h) as Ha.
  pose proof (contents_alloc (contents (_pages (paginator i)) h) h) as Hn.
  unfold alloc in *. simpl in *.
  rewrite (preserved_contents h _ _ Ha Hc).
  destruct (_ >? _); simpl; [|done].
  rewrite contents_append by (rewrite List.length_app; simpl; lia).
  by rewrite Hn.
Qed.

Lemma page_count_view i h :
  valid h (paginator i) ->
  fst (page_count i h) = PaginatorInterface.page_count (view_interface h i).
Proof.
  intros Hv. unfold page_count, PaginatorInterface.page_count.
  rewrite <- (pages_view i h Hv). by destruct (pages i h).
Qed.

Lemma display_page_view i h :
  valid h (paginator i) ->
  fst (fst (display_page i h)) = fst (PaginatorInterface.display_page (view_interface h i)).
Proof.
  intros Hv. unfold display_page, PaginatorInterface.display_page.
  rewrite <- (page_count_view i h Hv). by destruct (page_count i h).
Qed.

Lemma page_count_preserved i h : preserved h (snd (page_count i h)).
Proof.
  unfold page_count. pose proof (pages_preserved i h).
  by destruct (pages i h).
Qed.

Lemma display_page_preserved i h :
  preserved h (snd (display_page i h))
  /\ paginator (snd (fst (display_page i h))) = paginator i.
Proof.
  unfold display_page. pose proof (page_count_preserved i h).
  by destruct (page_count i h).
Qed.

Lemma send_kwargs_preserved i h :
  preserved h (snd (send_kwargs i h))
  /\ paginator (snd (fst (send_kwargs i h))) = paginator i.
Proof.
  unfold send_kwargs.
  pose proof (display_page_preserved i h) as [H1 Hp1].
  destruct (display_page i h) as [[v i1] h1]. simpl in *.
  pose proof (page_count_preserved i1 h1) as H2.
  destruct (page_count i1 h1) as [c h2]. simpl in *.
  pose proof (pages_preserved i1 h2) as H3.
  destruct (pages i1 h2) as [a h3]. simpl in *.
  assert (preserved h h3) by eauto using preserved_trans.
  by destruct (_ !! _).
Qed.

Lemma do_read_preserved r i h :
  preserved h (snd (do_read r i h)) /\ paginator (fst (do_read r i h)) = paginator i.
Proof.
  destruct r; simpl.
  - split; [apply pages_preserved|done].
  - split; [apply page_count_preserved|done].
  - pose proof (display_page_preserved i h). by destruct (display_page i h) as [[? ?] ?].
  - pose proof (send_kwargs_preserved i h). by destruct (send_kwargs i h) as [[? ?] ?].
Qed.

Lemma do_reads_preserved rs : forall i h,
  preserved h (snd (do_reads rs i h)) /\ paginator (fst (do_reads rs i h)) = paginator i.
Proof.
  induction rs as [|r rs IH]; intros i h; simpl; [by split|].
  pose proof (do_read_preserved r i h) as [H1 Hp1].
  destruct (do_read r i h) as [i1 h1]. simpl in *.
  destruct (IH i1 h1) as [H2 Hp2].
  split; [by apply (preserved_trans h h1)|congruence].
Qed.

End InterfaceReads.

Section PaginatorPagesAliases.
Import Ref.

Lemma contents_append_ne a b x h : a <> b -> contents b (append a x h) = contents b h.
Proof. intros Hne. unfold append, contents at 1. by rewrite list_lookup_insert_ne. Qed.

Lemma length_append a x h : length (append a x h) = length h.
Proof. unfold append. by rewrite length_insert. Qed.

Lemma close_page_pages_length q :
  length (Paginator._pages (Paginator.close_page q)) = S (length (Paginator._pages q)).
Proof.
  unfold Paginator.close_page, Paginator.reset_page.
  destruct (Paginator.prefix _); simpl; rewrite List.length_app; simpl; lia.
Qed.

(** [close_page] on the heap is [close_page] of the first model. *)
Lemma close_page_view p h :
  valid h p ->
  view (snd (close_page p h)) (fst (close_page p h)) = Paginator.close_page (view h p)
  /\ valid (snd (close_page p h)) (fst (close_page p h))
  /\ _pages (fst (close_page p h)) = _pages p.
Proof.
  intros (Hc & Hpg & Hne).
  unfold close_page, Paginator.close_page, Paginator.reset_page, view, valid, alloc.
  destruct p as [pr sf ms ls cur cnt pgs]. simpl in *.
  set (h1 := match sf with Some s => append cur s h | None => h end).
  assert (H1 : length h1 = length h) by (subst h1; destruct sf; by rewrite ?length_append).
  assert (Hcur : contents cur h1
                 = match sf with Some s => contents cur h ++ [s] | None => contents cur h end).
  { subst h1. destruct sf; [by apply contents_append|done]. }
  assert (Hpgs : contents pgs h1 = contents pgs h).
  { subst h1. destruct sf; [by apply contents_append_ne|done]. }
  clearbody h1. rewrite Hcur.
  set (page := match sf with Some s => _ | None => _ end).
  set (h2 := append pgs (Py.join ls page) h1).
  assert (H2 : length h2 = length h) by (subst h2; by rewrite length_append).
  assert (Hpgs2 : contents pgs h2 = contents pgs h ++ [Py.join ls page]).
  { subst h2. rewrite contents_append by lia. by rewrite Hpgs. }
  clearbody h2.
  destruct pr as [s|]; simpl; rewrite List.length_app; simpl;
    unfold Paginator.set_page, Paginator.set_pages, Paginator._linesep_len; simpl.
  - split; [|split; [|done]].
    + f_equal.
      * unfold contents. by rewrite lookup_app_r, H2, Nat.sub_diag by lia.
      * unfold contents. rewrite lookup_app_l by lia. apply Hpgs2.
    + split; [lia|]. split; lia.
  - split; [|split; [|done]].
    + f_equal.
      * unfold contents. by rewrite lookup_app_r, H2, Nat.sub_diag by lia.
      * unfold contents. rewrite lookup_app_l by lia. apply Hpgs2.
    + split; [lia|]. split; lia.
Qed.

(** C10. Reading [pages], [page_count], [display_page] or [send_kwargs] of
    an interface, any number of times and in any order, leaves every list
    that existed before as it was and rebinds no attribute of the
    paginator: its closed pages, its open buffer and its count are the same
    afterwards, and the list that [pages] of the interface returns is a new
    one. [Paginator.pages] is different: on a paginator whose open buffer
    has a line it returns the list that [_pages] names, after [close_page]
    has changed it. *)
Theorem interface_reads_leave_paginator
    (rs : list read) (i : PaginatorInterface) (h : heap) :
  valid h (paginator i) ->
  let i' := fst (do_reads rs i h) in
  let h' := snd (do_reads rs i h) in
  (paginator i' = paginator i
   /\ (forall a : nat, (a < length h)%nat -> h' !! a = h !! a)
   /\ view h' (paginator i') = view h (paginator i))
  /\ ((length h <= fst (pages i h))%nat
      /\ contents (fst (pages i h)) (snd (pages i h))
         = PaginatorInterface.pages (view_interface h i))
  /\ (let p := paginator i in
      let r := Paginator_pages p h in
      Z.of_nat (length (contents (_current_page p) h))
        > match prefix p with None => 0 | Some _ => 1 end ->
      fst (fst r) = _pages p
      /\ view (snd r) (snd (fst r)) = Paginator.close_page (view h p)
      /\ view (snd r) (snd (fst r)) <> view h p).
Proof.
  intros Hv i' h'. subst i' h'.
  destruct (do_reads_preserved rs i h) as [Hpres Hpag].
  split; [|split].
  - split; [done|]. split; [apply Hpres|].
    rewrite Hpag. by apply preserved_view.
  - split; [|by apply pages_view].
    unfold pages, alloc. simpl. by destruct (_ >? _).
  - intros p r Hgt. subst r. unfold Paginator_pages.
    rewrite (lt_gtb_true _ _ (Z.gt_lt _ _ Hgt)).
    destruct (close_page_view p h Hv) as (Hview & _ & Hsame).
    destruct (close_page p h) as [p1 h1]. simpl in *.
    split; [done|]. split; [done|].
    rewrite Hview. intros Heq.
    apply (f_equal (fun q => length (Paginator._pages q))) in Heq.
    rewrite close_page_pages_length in Heq. lia.
Qed.

Lemma interface_reads_leave_paginator_witness :
  let h := [["```"%string; "a line"%string]; ["a closed page"%string]] in
  let i := mkInterface 5 (mkPaginator (Some "```"%string) (Some "```"%string) 1900
                                      PaginatorInterface.newline 0%nat 11 1%nat) in
  let i' := fst (do_reads [ReadSendKwargs; ReadPages; ReadDisplayPage; ReadPageCount] i h) in
  let h' := snd (do_reads [ReadSendKwargs; ReadPages; ReadDisplayPage; ReadPageCount] i h) in
  valid h (paginator i)
  /\ view h' (paginator i') = view h (paginator i)
  /\ view (snd (Paginator_pages (paginator i) h)) (snd (fst (Paginator_pages (paginator i) h)))
     <> view h (paginator i).
Proof.
  intros h i i' h'.
  assert (Hv : valid h (paginator i)) by (repeat split; simpl; lia).
  split; [exact Hv|].
  pose proof (interface_reads_leave_paginator
                [ReadSendKwargs; ReadPages; ReadDisplayPage; ReadPageCount] i h Hv)
    as (H1 & _ & H3).
  split; [apply H1|]. apply H3. vm_compute. reflexivity.
Defined.

End PaginatorPagesAliases.

(** ** wrap_code: the final statement *)

Section WrapCodeFinal.
Import Ast Compilation.

Lemma unsnoc_snoc {A} (l : list A) (x : A) : unsnoc (l ++ [x]) = Some (l, x).
Proof.
  induction l as [|y l IH]; [reflexivity|].
  simpl. by rewrite IH.
Qed.

Lemma wrap_code_spec
    (visit_stmt : stmt -> list stmt) (visit_handler : excepthandler -> list excepthandler)
    (IMPORTER : string) (user_code : py_module) (arg_names : list string)
    (init : list stmt) (last_stmt : stmt) :
  visit_list visit_stmt (pass_stmt :: body user_code) = init ++ [last_stmt] ->
  wrap_code visit_stmt visit_handler IMPORTER user_code arg_names
  = Returned
      (coroutine_tree IMPORTER arg_names
         (match last_stmt with
          | Expr value loc =>
              if is_Yield value then init ++ [last_stmt]
              else init ++ [Expr (Yield (Some value) loc) loc]
          | _ => init ++ [last_stmt]
          end)
         [] [] (visit_list visit_stmt [update_stmt])).
Proof.
  intros Hvisited. unfold wrap_code, CORO_CODE, coroutine_tree.
  cbn [body unsnoc app].
  rewrite Hvisited, unsnoc_snoc.
  destruct last_stmt as [| | | | | | | | | |value loc|]; try reflexivity.
  by destruct (is_Yield value).
Qed.

(** A transformer that maps no statement to nothing makes [wrap_code]
    return a module for every snippet. *)
Lemma wrap_code_returns
    (visit_stmt : stmt -> list stmt) (visit_handler : excepthandler -> list excepthandler)
    (IMPORTER : string) (user_code : py_module) (arg_names : list string) :
  (forall s, visit_stmt s <> []) ->
  exists m, wrap_code visit_stmt visit_handler IMPORTER user_code arg_names = Returned m.
Proof.
  intros Hkeep.
  destruct (exists_last (l := visit_list visit_stmt (pass_stmt :: body user_code)))
    as (init & last_stmt & Heq).
  - unfold visit_list. simpl. intros Hnil. apply app_eq_nil in Hnil as [Hnil _].
    by apply (Hkeep pass_stmt).
  - eexists. by apply (wrap_code_spec _ _ _ _ _ init last_stmt).
Qed.

(** C5. The body of the [try] statement of the template, with the
    statements of the snippet put after [pass] and the keyword transformer
    applied, ends with a statement [last_stmt]. If that is an expression
    statement whose value is no [yield], the module that [wrap_code] returns
    has in its place, with the same location, the expression statement of a
    [yield] of that value; otherwise the body is returned as it is, with no
    [yield] put in. The rest of the template is what the transformer makes
    of it. *)
Theorem wrap_code_final_statement
    (visit_stmt : stmt -> list stmt) (visit_handler : excepthandler -> list excepthandler)
    (IMPORTER : string) (user_code : py_module) (arg_names : list string)
    (init : list stmt) (last_stmt : stmt) :
  visit_list visit_stmt (pass_stmt :: body user_code) = init ++ [last_stmt] ->
  wrap_code visit_stmt visit_handler IMPORTER user_code arg_names
  = Returned
      (coroutine_tree IMPORTER arg_names
         (match last_stmt with
          | Expr value loc =>
              if is_Yield value then init ++ [last_stmt]
              else init ++ [Expr (Yield (Some value) loc) loc]
          | _ => init ++ [last_stmt]
          end)
         [] [] (visit_list visit_stmt [update_stmt])).
Proof. apply wrap_code_spec. Qed.

Lemma wrap_code_final_statement_witness :
  let at_ := Loc 1 0 1 5 in
  let x_plus_1 :=
    BinOp (Name "x" Load (Loc 1 0 1 1)) Add (Constant (CInt 1) (Loc 1 4 1 5)) at_ in
  wrap_code (fun s => [s]) (fun h => [h]) "importer"
    (Module_ [Expr x_plus_1 at_]) ["_async_executor"%string]
  = Returned
      (coroutine_tree "importer" ["_async_executor"%string]
         [pass_stmt; Expr (Yield (Some x_plus_1) at_) at_] [] [] [update_stmt]).
Proof.
  intros at_ x_plus_1.
  exact (wrap_code_final_statement (fun s => [s]) (fun h => [h]) "importer"
           (Module_ [Expr x_plus_1 at_]) ["_async_executor"%string]
           [pass_stmt] (Expr x_plus_1 at_) eq_refl).
Defined.

End WrapCodeFinal.

(** ** AsyncCodeExecutor: the locals go to the Scope *)

Section ExecutorScope.
Import Exec.
Local Open Scope exec_scope.









End ExecutorScope.

(** * Further properties *)

(** ** Paginator: the pages *)

Section PaginatorPages.
Import Paginator.

Lemma close_page_current p : _current_page (close_page p) = opt_list (prefix p).
Proof. unfold close_page, reset_page. by destruct p as [[pr|] ? ? ? ? ? ?]. Qed.

Lemma close_page_prefix p : prefix (close_page p) = prefix p.
Proof. by destruct (close_page_config p) as (-> & _). Qed.

(** X1. Reading [pages] a second time returns the same list and leaves the
    paginator as the first read left it: the first read has closed the open
    buffer if it held a line, and the second finds nothing to close. *)
Theorem pages_idempotent (p : Paginator.t) :
  pages (snd (pages p)) = (fst (pages p), snd (pages p)).
Proof.
  unfold pages at 2 3 4.
  destruct (_ >? _) eqn:Hgt; simpl.
  - unfold pages. rewrite close_page_current, close_page_prefix.
    destruct (prefix p); reflexivity.
  - unfold pages. by rewrite Hgt.
Qed.

Lemma add_line_pages_extend l e p :
  exists more, _pages (state_of (add_line l e p)) = _pages p ++ more.
Proof.
  unfold add_line. destruct (_ >? _); simpl; [exists []; by rewrite app_nil_r|].
  destruct (_ >? _).
  - eexists. destruct e; simpl; unfold close_page, reset_page;
      destruct (prefix _); reflexivity.
  - exists []. rewrite app_nil_r. by destruct e.
Qed.

Lemma close_page_pages p :
  _pages (close_page p)
  = _pages p ++ [Py.join (linesep p) (_current_page p ++ opt_list (suffix p))].
Proof.
  unfold close_page, reset_page.
  destruct p as [[pr|] [sf|] ms ls cur cnt pgs]; simpl; by rewrite ?app_nil_r.
Qed.

Lemma run_ops_pages_extend os : forall p,
  exists more, _pages (state_of (run_ops os p)) = _pages p ++ more.
Proof.
  induction os as [|o os IH]; intros p; [exists []; simpl; by rewrite app_nil_r|].
  simpl. unfold bind.
  assert (Ho : exists more, _pages (state_of (run_op o p)) = _pages p ++ more).
  { destruct o as [l e|]; simpl; [apply add_line_pages_extend|].
    eexists. apply close_page_pages. }
  destruct Ho as (m1 & H1).
  destruct (run_op o p) as [[] p1|x p1]; simpl in *.
  - destruct (IH p1) as (m2 & H2). exists (m1 ++ m2). by rewrite H2, H1, app_assoc.
  - by exists m1.
Qed.

(** X2. Calls of [add_line] and [close_page], and the read of [pages] after
    them, only ever append to the list of closed pages: the pages that a
    paginator had are the first pages it has afterwards, unchanged. *)
Theorem closed_pages_append_only (os : list op) (p : Paginator.t) :
  let q := state_of (run_ops os p) in
  (exists more, _pages q = _pages p ++ more)
  /\ (exists more, fst (pages q) = _pages p ++ more).
Proof.
  intros q. destruct (run_ops_pages_extend os p) as (m & Hm). fold q in Hm.
  split; [by exists m|].
  unfold pages. destruct (_ >? _); simpl.
  - eexists. by rewrite close_page_pages, Hm, <- app_assoc.
  - by exists m.
Qed.

End PaginatorPages.

Section PaginatorPageSize.
Import Paginator.

Lemma fresh_buffer_no_close p l :
  fresh_buffer p -> Py.len l <= max_page_size p ->
  (_count p + Py.len l + _linesep_len p >? max_size p - _suffix_len p) = false.
Proof.
  intros [_ Hc] Hcap. apply le_gtb_false. unfold max_page_size in Hcap.
  pose proof (len_nonneg (linesep p)). unfold _linesep_len in *. lia.
Qed.

Lemma pages_within_init prefix suffix max_size linesep k :
  pages_within k (__init__ prefix suffix max_size linesep).
Proof.
  split; [apply counted_init|]. split; [by constructor|]. left.
  destruct (shape_init prefix suffix max_size linesep) as [_ Hpage Hcount _].
  split; [by rewrite Hpage, app_nil_r|by apply Hcount].
Qed.

Lemma add_line_config l e p p' : add_line l e p = Ok tt p' -> same_config p p'.
Proof.
  unfold add_line. destruct (_ >? _); [discriminate|].
  set (q := if _ >? _ then close_page p else p).
  assert (Hq : same_config p q).
  { subst q. destruct (_ >? _); [apply close_page_config|apply same_config_refl]. }
  clearbody q. intros [= <-]. destruct Hq as (?&?&?&?). by destruct e.
Qed.

Lemma add_line_pages l e p p' :
  add_line l e p = Ok tt p' ->
  _pages p' = _pages p
  \/ (_pages p' = _pages (close_page p)
      /\ (_count p + Py.len l + _linesep_len p >? max_size p - _suffix_len p) = true
      /\ Py.len l <= max_page_size p).
Proof.
  unfold add_line. destruct (_ >? _) eqn:Hcap; [discriminate|].
  apply gtb_false_le in Hcap.
  destruct (_count p + _ + _ >? _) eqn:Hfit; intros [= <-].
  - right. by destruct e.
  - left. by destruct e.
Qed.

Lemma pages_within_add_line k l e p p' :
  0 <= k -> (e = true -> _linesep_len p <= k) ->
  pages_within k p -> add_line l e p = Ok tt p' -> pages_within k p'.
Proof.
  intros Hk He (Hc & Hpages & Hopen) Hrun.
  pose proof (add_line_config l e p p' Hrun) as (_ & _ & Hmax & Hls).
  split; [by apply (counted_add_line p l e)|]. split.
  - rewrite Hmax.
    destruct (add_line_pages l e p p' Hrun) as [->|(-> & Hfit & Hcap)]; [done|].
    rewrite close_page_pages. apply Forall_app. split; [done|].
    constructor; [|done].
    destruct Hopen as [Hfresh|Hr]; [|exact Hr].
    by rewrite (fresh_buffer_no_close p l Hfresh Hcap) in Hfit.
  - right. rewrite Hmax. destruct e.
    + pose proof (add_line_empty_bound p l p' Hc Hrun) as Hb.
      specialize (He eq_refl). unfold _linesep_len in *. rewrite Hls in Hb. lia.
    + destruct (add_line_within_max_size p l p' Hc Hrun) as [_ Hb]. lia.
Qed.

Lemma add_lines_config calls : forall p, same_config p (state_of (add_lines calls p)).
Proof.
  induction calls as [|[l e] calls IH]; intros p; [apply same_config_refl|].
  simpl. unfold bind.
  destruct (add_line l e p) as [[] p1|x p1] eqn:Hrun; simpl.
  - apply (same_config_trans p p1); [by apply (add_line_config l e)|apply IH].
  - rewrite (add_line_raised _ _ _ _ _ Hrun). apply same_config_refl.
Qed.

Lemma pages_within_add_lines k calls : forall p,
  0 <= k -> Forall (fun c => empty c = true -> _linesep_len p <= k) calls ->
  pages_within k p -> pages_within k (state_of (add_lines calls p)).
Proof.
  induction calls as [|[l e] calls IH]; intros p Hk Hall Hin; [done|].
  apply Forall_cons in Hall as [He Hall]. simpl in He.
  simpl. unfold bind.
  destruct (add_line l e p) as [[] p1|x p1] eqn:Hrun; simpl.
  - apply IH; [done| |by apply (pages_within_add_line k l e p)].
    pose proof (add_line_config l e p p1 Hrun) as (_ & _ & _ & Hls).
    unfold _linesep_len. by rewrite Hls.
  - by rewrite (add_line_raised _ _ _ _ _ Hrun).
Qed.

Lemma pages_within_pages k p :
  pages_within k p -> Forall (fun page => Py.len page <= max_size p + k) (fst (pages p)).
Proof.
  intros (Hc & Hpages & Hopen). unfold pages.
  destruct (_ >? _) eqn:Hgt; simpl; [|done].
  rewrite close_page_pages. apply Forall_app. split; [done|].
  constructor; [|done].
  destruct Hopen as [[Hfresh _]|Hr]; [|exact Hr].
  apply gtb_true_lt in Hgt. rewrite Hfresh in Hgt.
  destruct (prefix p); simpl in Hgt; lia.
Qed.

(** X3. After any calls of [add_line] on a new paginator, as far as they
    went before one raised, no page that [pages] returns is longer than
    [max_size] plus one line separator; if no call had [empty] set, no page
    is longer than [max_size]. *)
Theorem pages_within_max_size
    (prefix suffix : option string) (max_size : Z) (linesep : string) (calls : list call) :
  let p := state_of (add_lines calls (__init__ prefix suffix max_size linesep)) in
  Forall (fun page => Py.len page <= max_size + Py.len linesep) (fst (pages p))
  /\ (Forall (fun c => empty c = false) calls ->
      Forall (fun page => Py.len page <= max_size) (fst (pages p))).
Proof.
  intros p.
  assert (Hms : Paginator.max_size p = max_size /\ Paginator.linesep p = linesep).
  { destruct (add_lines_config calls (__init__ prefix suffix max_size linesep))
      as (_ & _ & Hm & Hl). fold p in Hm, Hl. rewrite Hm, Hl. by destruct prefix. }
  destruct Hms as [Hm Hl].
  assert (Hl0 : _linesep_len (__init__ prefix suffix max_size linesep) = Py.len linesep)
    by (by destruct prefix).
  pose proof (len_nonneg linesep) as Hnn.
  split.
  - rewrite <- Hm. apply pages_within_pages, pages_within_add_lines;
      [done| |apply pages_within_init].
    apply Forall_forall. intros c _ _. lia.
  - intros Hall.
    assert (H0 : Forall (fun page => Py.len page <= Paginator.max_size p + 0) (fst (pages p))).
    { apply pages_within_pages, pages_within_add_lines; [done| |apply pages_within_init].
      eapply Forall_impl; [exact Hall|]. simpl. intros c Hc Hc'. congruence. }
    eapply Forall_impl; [exact H0|]. simpl. intros page Hp. lia.
Qed.

End PaginatorPageSize.

(** ** WrappedPaginator: how [add_line] ends *)

Section WrappedEnds.
Import WrappedPaginator.

Lemma wrap_loop_fuel_S fuel : forall tms orig l e w r,
  wrap_loop fuel tms orig l e w = Some r -> wrap_loop (S fuel) tms orig l e w = Some r.
Proof.
  induction fuel as [|fuel IH]; intros tms orig l e w r; [discriminate|].
  intros H. revert H.
  change (wrap_loop (S (S fuel)) tms orig l e w)
    with (if Py.len l >? tms then
            match find_delimiter (wrap_on w) (Py.slice_to l (tms - 1)) with
            | Some (position, delimiter) =>
                match super_add_line (Py.slice_to l position) e w with
                | Raised x w' => Some (Raised x w')
                | Ok _ w' =>
                    wrap_loop (S fuel) tms orig
                      (if include_wrapped w then Py.slice_from l position
                       else Py.slice_from l (position + Py.len delimiter)) e w'
                end
            | None =>
                if negb (force_wrap w) then
                  Some (Raised (ValueError_could_not_wrap orig (Py.len l) tms (wrap_on w)) w)
                else
                  match super_add_line (Py.slice_to l (tms - 1)) false w with
                  | Raised x w' => Some (Raised x w')
                  | Ok _ w' => wrap_loop (S fuel) tms orig (Py.slice_from l (tms - 1)) e w'
                  end
            end
          else Some (super_add_line l e w)).
  simpl. destruct (_ >? _); [|done].
  destruct (find_delimiter _ _) as [[position d]|].
  - destruct (super_add_line _ _ _) as [[] w1|x w1]; [apply IH|done].
  - destruct (negb _); [done|].
    destruct (super_add_line _ _ _) as [[] w1|x w1]; [apply IH|done].
Qed.

Lemma wrap_loop_fuel_le fuel fuel' tms orig l e w r :
  (fuel <= fuel')%nat ->
  wrap_loop fuel tms orig l e w = Some r -> wrap_loop fuel' tms orig l e w = Some r.
Proof.
  induction 1 as [|fuel' _ IH]; [done|]. intros H. by apply wrap_loop_fuel_S, IH.
Qed.

Lemma super_add_line_inv l e w r :
  super_add_line l e w = r ->
  match r with
  | Ok _ w1 =>
      exists b, Paginator.add_line l e (base w) = Ok tt b /\ w1 = set_base w b
                /\ same_config (base w) b /\ Py.len l <= Paginator.max_page_size (base w)
  | Raised x w1 =>
      x = RuntimeError_line_exceeds (Paginator.max_page_size (base w))
      /\ Paginator.max_page_size (base w) < Py.len l
  end.
Proof.
  intros <-. unfold super_add_line.
  destruct (Z_le_gt_dec (Py.len l) (Paginator.max_page_size (base w))) as [Hle|Hgt].
  - destruct (add_line_accepts (base w) l e Hle) as (b & page & Hrun & Hcfg & _).
    rewrite Hrun. by exists b.
  - rewrite add_line_rejects by lia. split; [done|lia].
Qed.

Lemma wrap_outcome_set_base tms orig n n' w b r :
  same_config (base w) b -> n <= n' ->
  wrap_outcome tms orig n (set_base w b) r -> wrap_outcome tms orig n' w r.
Proof.
  intros Hcfg Hn. unfold wrap_outcome. destruct r as [|x w1]; [done|]. simpl.
  rewrite (same_config_max_page_size (base w) b Hcfg).
  intros [H|(Hf & m & Hm & Hx)]; [by left|].
  right. split; [done|]. exists m. split; [lia|done].
Qed.

(** With a usable size of at least 2 every round of the loop takes
    characters off the line, and the loop ends. *)
Lemma wrap_loop_total n : forall l e w tms orig,
  (String.length l <= n)%nat -> 2 <= tms ->
  exists fuel r,
    wrap_loop fuel tms orig l e w = Some r /\ wrap_outcome tms orig (Py.len l) w r.
Proof.
  induction n as [|n IH]; intros l e w tms orig Hn H2;
    destruct (Py.len l >? tms) eqn:Hlong.
  - apply gtb_true_lt in Hlong. unfold Py.len in Hlong. lia.
  - apply gtb_false_le in Hlong. exists 1%nat, (super_add_line l e w). simpl.
    rewrite (le_gtb_false _ _ Hlong). split; [done|].
    pose proof (super_add_line_inv l e w _ eq_refl) as Hinv.
    destruct (super_add_line l e w) as [[] w1|x w1]; [done|].
    left. destruct Hinv as [-> Hlt]. split; [done|lia].
  - apply gtb_true_lt in Hlong.
    assert (Hstep : forall piece e' l',
               Py.len piece <= tms - 1 -> (String.length l' < String.length l)%nat ->
               exists fuel r,
                 match super_add_line piece e' w with
                 | Raised x w' => Some (Raised x w')
                 | Ok _ w' => wrap_loop fuel tms orig l' e w'
                 end = Some r
                 /\ wrap_outcome tms orig (Py.len l) w r).
    { intros piece e' l' Hpiece Hl'.
      pose proof (super_add_line_inv piece e' w _ eq_refl) as Hinv.
      destruct (super_add_line piece e' w) as [[] w1|x w1].
      - destruct Hinv as (b & _ & -> & Hcfg & _).
        destruct (IH l' e (set_base w b) tms orig) as (fuel & r & Hloop & Hout); [lia|done|].
        exists fuel, r. split; [done|].
        apply (wrap_outcome_set_base tms orig (Py.len l') (Py.len l) w b r Hcfg);
          [unfold Py.len; lia|done].
      - exists 0%nat, (Raised x w1). split; [done|].
        left. destruct Hinv as [-> Hlt]. split; [done|lia]. }
    pose proof (len_nonneg l) as Hl0.
    destruct (find_delimiter (wrap_on w) (Py.slice_to l (tms - 1))) as [[position d]|] eqn:Hfind.
    + pose proof (find_delimiter_position _ _ _ _ Hfind) as Hpos.
      rewrite len_slice_to in Hpos by lia.
      destruct (Hstep (Py.slice_to l position) e
                  (if include_wrapped w then Py.slice_from l position
                   else Py.slice_from l (position + Py.len d)))
        as (fuel & r & Hrun & Hout).
      { rewrite len_slice_to by lia. lia. }
      { pose proof (len_nonneg d).
        destruct (include_wrapped w).
        - pose proof (len_slice_from l position ltac:(lia)) as Hs.
          unfold Py.len in *. lia.
        - pose proof (len_slice_from l (position + Py.len d) ltac:(lia)) as Hs.
          unfold Py.len in *. lia. }
      exists (S fuel), r. split; [|done].
      simpl. by rewrite (lt_gtb_true _ _ Hlong), Hfind.
    + destruct (force_wrap w) eqn:Hforce.
      * destruct (Hstep (Py.slice_to l (tms - 1)) false (Py.slice_from l (tms - 1)))
          as (fuel & r & Hrun & Hout).
        { rewrite len_slice_to by lia. lia. }
        { pose proof (len_slice_from l (tms - 1) ltac:(lia)) as Hs. unfold Py.len in *. lia. }
        exists (S fuel), r. split; [|done].
        simpl. by rewrite (lt_gtb_true _ _ Hlong), Hfind, Hforce.
      * exists 1%nat. eexists. split.
        { simpl. by rewrite (lt_gtb_true _ _ Hlong), Hfind, Hforce. }
        right. split; [done|]. exists (Py.len l). split; [lia|done].
  - apply gtb_false_le in Hlong. exists 1%nat, (super_add_line l e w). simpl.
    rewrite (le_gtb_false _ _ Hlong). split; [done|].
    pose proof (super_add_line_inv l e w _ eq_refl) as Hinv.
    destruct (super_add_line l e w) as [[] w1|x w1]; [done|].
    left. destruct Hinv as [-> Hlt]. split; [done|lia].
Qed.

(** X4. When the usable size of a wrapped paginator is at least 2,
    [add_line] ends for every line: given enough rounds it returns or
    raises, and more rounds change nothing. It raises only the size error
    of the paginator, and that only if the capacity of a line is less than
    the usable size (a line separator of more than one character), or the
    error that nothing could be wrapped, and that only without [force_wrap];
    the latter names the length of the line, the length of what remained,
    which is more than the usable size, the usable size and the
    delimiters. *)
Theorem wrapped_add_line_ends (w : WrappedPaginator.t) (l : string) (e : bool) :
  2 <= true_max_size w ->
  exists fuel r,
    (forall fuel', (fuel <= fuel')%nat -> add_line fuel' l e w = Some r)
    /\ wrap_outcome (true_max_size w) (Py.len l) (Py.len l) w r.
Proof.
  intros H2.
  destruct (wrap_loop_total (String.length l) l e w (true_max_size w) (Py.len l))
    as (fuel & r & Hloop & Hout); [lia|done|].
  exists fuel, r. split; [|done].
  intros fuel' Hle. by apply (wrap_loop_fuel_le fuel fuel').
Qed.

Lemma wrapped_add_line_ends_witness :
  let w := __init__ (Some "```"%string) (Some "```"%string) 20 PaginatorInterface.newline
             default_wrap_on true false in
  2 <= true_max_size w
  /\ exists fuel r,
       (forall fuel', (fuel <= fuel')%nat ->
                      add_line fuel' "one two three four five" false w = Some r)
       /\ wrap_outcome (true_max_size w) (Py.len "one two three four five")
            (Py.len "one two three four five") w r.
Proof.
  intros w.
  assert (H2 : 2 <= true_max_size w) by (vm_compute; discriminate).
  split; [exact H2|].
  exact (wrapped_add_line_ends w "one two three four five" false H2).
Defined.

End WrappedEnds.

Section WrappedPieces.
Import WrappedPaginator.

Lemma wrap_loop_pieces fuel : forall l e w tms orig w',
  wrap_loop fuel tms orig l e w = Some (Ok tt w') ->
  exists pieces,
    Paginator.add_lines pieces (base w) = Ok tt (base w')
    /\ w' = set_base w (base w')
    /\ Forall (fun c => Py.len (Paginator.line c) <= Paginator.max_page_size (base w)) pieces
    /\ (include_wrapped w = true -> concat_lines (map Paginator.line pieces) = l).
Proof.
  induction fuel as [|fuel IH]; intros l e w tms orig w'; [discriminate|].
  assert (Hstep : forall piece e' l',
             match super_add_line piece e' w with
             | Raised x w1 => Some (Raised x w1)
             | Ok _ w1 => wrap_loop fuel tms orig l' e w1
             end = Some (Ok tt w') ->
             exists pieces,
               Paginator.add_lines (Paginator.Call piece e' :: pieces) (base w)
               = Ok tt (base w')
               /\ w' = set_base w (base w')
               /\ Forall (fun c => Py.len (Paginator.line c)
                                   <= Paginator.max_page_size (base w))
                    (Paginator.Call piece e' :: pieces)
               /\ (include_wrapped w = true ->
                   concat_lines (map Paginator.line pieces) = l')).
  { intros piece e' l'.
    pose proof (super_add_line_inv piece e' w _ eq_refl) as Hinv.
    destruct (super_add_line piece e' w) as [[] w1|x w1]; [|discriminate].
    destruct Hinv as (b & Hadd & -> & Hcfg & Hlen). intros Hloop.
    destruct (IH _ _ _ _ _ _ Hloop) as (pieces & Hrun & Hw' & Hall & Hcat).
    exists pieces. simpl in *. split; [unfold bind; by rewrite Hadd|].
    split; [done|]. split; [|done].
    constructor; [done|].
    eapply Forall_impl; [exact Hall|]. intros c Hc. simpl in Hc.
    by rewrite <- (same_config_max_page_size (base w) b). }
  simpl. destruct (_ >? _).
  - destruct (find_delimiter _ _) as [[position d]|].
    + intros H. destruct (Hstep _ _ _ H) as (pieces & Hrun & Hw' & Hall & Hcat).
      eexists. split; [exact Hrun|]. split; [done|]. split; [done|].
      intros Hinc. specialize (Hcat Hinc). rewrite Hinc in Hcat.
      simpl. rewrite Hcat. apply slice_to_from.
    + destruct (negb _); [discriminate|].
      intros H. destruct (Hstep _ _ _ H) as (pieces & Hrun & Hw' & Hall & Hcat).
      eexists. split; [exact Hrun|]. split; [done|]. split; [done|].
      intros Hinc. specialize (Hcat Hinc). simpl. rewrite Hcat. apply slice_to_from.
  - intros [= H].
    pose proof (super_add_line_inv l e w _ H) as (b & Hadd & -> & _ & Hlen).
    exists [Paginator.Call l e]. simpl. split; [unfold bind; by rewrite Hadd|].
    split; [done|]. split; [by constructor|].
    intros _. apply string_app_nil_r.
Qed.

(** X5. When [add_line] of a wrapped paginator returns, the paginator is as
    after adding some pieces one by one with [add_line] of the paginator
    class, each piece within the capacity of a line; and with
    [include_wrapped] the pieces, one after the other, are the line: no
    character is lost or added by the wrapping. *)
Theorem wrapped_add_line_keeps_text
    (fuel : nat) (w w' : WrappedPaginator.t) (l : string) (e : bool) :
  add_line fuel l e w = Some (Ok tt w') ->
  exists pieces,
    Paginator.add_lines pieces (base w) = Ok tt (base w')
    /\ w' = set_base w (base w')
    /\ Forall (fun c => Py.len (Paginator.line c) <= Paginator.max_page_size (base w)) pieces
    /\ (include_wrapped w = true -> concat_lines (map Paginator.line pieces) = l).
Proof. apply wrap_loop_pieces. Qed.

Lemma wrapped_add_line_keeps_text_witness :
  let w := __init__ (Some "```"%string) (Some "```"%string) 20 PaginatorInterface.newline
             default_wrap_on true false in
  let l := "one two three four five"%string in
  exists w' pieces,
    add_line 5 l false w = Some (Ok tt w')
    /\ Paginator.add_lines pieces (base w) = Ok tt (base w')
    /\ concat_lines (map Paginator.line pieces) = l.
Proof.
  intros w l.
  destruct (add_line 5 l false w) as [[[] w'|x w']|] eqn:Hrun; try discriminate.
  destruct (wrapped_add_line_keeps_text 5 w w' l false Hrun)
    as (pieces & Hadd & _ & _ & Hcat).
  exists w', pieces. split; [reflexivity|]. split; [exact Hadd|]. by apply Hcat.
Defined.

End WrappedPieces.

Section WrappedHangs.
Import WrappedPaginator.

(** X6. With [force_wrap], a usable size of exactly 1 and a line separator
    of at most one character, [add_line] does not end on any line of more
    than one character: the forced cut takes nothing off the line, and
    however many rounds the loop is given, it is still running. *)
Theorem wrapped_add_line_never_ends
    (fuel : nat) (w : WrappedPaginator.t) (l : string) (e : bool) :
  true_max_size w = 1 -> Py.len (Paginator.linesep (base w)) <= 1 ->
  force_wrap w = true -> 1 < Py.len l ->
  add_line fuel l e w = None.
Proof.
  intros Ht Hls Hforce Hlen. unfold add_line. rewrite Ht.
  apply force_wrap_loops; try done.
  unfold true_max_size in Ht.
  unfold Paginator.max_page_size, Paginator._linesep_len. lia.
Qed.

Lemma wrapped_add_line_never_ends_witness :
  add_line 1000 "ab" false
    (__init__ (Some "```"%string) (Some "```"%string) 9 PaginatorInterface.newline
       default_wrap_on true true)
  = None.
Proof.
  apply wrapped_add_line_never_ends; [reflexivity|vm_compute; discriminate|reflexivity|reflexivity].
Defined.

End WrappedHangs.

(** ** PaginatorInterface: what the interface shows *)

Section InterfaceShows.
Import PaginatorInterface.

Lemma suffix_or_empty_some p sf : Paginator.suffix p = Some sf -> suffix_or_empty p = sf.
Proof. unfold suffix_or_empty. intros ->. by destruct sf. Qed.

(** X7. For a paginator with a prefix, a suffix and the line separator
    ["\n"], the pages that the interface shows, which it computes without
    closing the open buffer, are the pages that the [pages] property of the
    paginator would return. *)
Theorem interface_pages_agree (i : PaginatorInterface.t) (pr sf : string) :
  Paginator.prefix (paginator i) = Some pr ->
  Paginator.suffix (paginator i) = Some sf ->
  Paginator.linesep (paginator i) = newline ->
  pages i = fst (Paginator.pages (paginator i)).
Proof.
  intros Hpr Hsf Hls. unfold pages, Paginator.pages. rewrite Hpr.
  destruct (_ >? 1) eqn:Hgt; simpl; [|done].
  rewrite close_page_pages, Hsf, Hls, (suffix_or_empty_some _ sf Hsf). simpl opt_list.
  do 2 f_equal. apply gtb_true_lt in Hgt.
  rewrite join_app; [done| |done].
  intros Hnil. rewrite Hnil in Hgt. simpl in Hgt. lia.
Qed.

Lemma interface_pages_agree_witness :
  let p := state_of (Paginator.add_lines
                       [Paginator.Call "first" false; Paginator.Call "second" true]
                       (Paginator.__init__ (Some "```"%string) (Some "```"%string) 20 newline)) in
  let i := mk 0 None p None 7200 false false in
  pages i = fst (Paginator.pages (paginator i)) /\ page_count i = 1.
Proof.
  intros p i. split; [|reflexivity].
  exact (interface_pages_agree i "```" "```" eq_refl eq_refl eq_refl).
Defined.

(** X8. [send_kwargs] raises IndexError exactly when the interface has no
    page. With at least one page it returns, under the key ["content"], the
    page at the stored index clamped into the range of the pages, followed
    by the footer with the number of that page, counted from 1, and the
    number of pages; the clamped index is stored, and the paginator is left
    as it was. *)
Theorem send_kwargs_content (i : PaginatorInterface.t) :
  let k := Z.max 0 (Z.min (page_count i - 1) (_display_page i)) in
  (page_count i = 0 -> send_kwargs i = Raised IndexError (set_display_page i 0))
  /\ (1 <= page_count i ->
      0 <= k < page_count i
      /\ exists page,
           pages i !! Z.to_nat k = Some page
           /\ send_kwargs i
              = Ok {[ "content"%string := (page +:+ footer (k + 1) (page_count i))%stdpp ]}
                   (set_display_page i k)).
Proof.
  intros k. unfold send_kwargs, display_page.
  change (page_count (set_display_page i _)) with (page_count i).
  change (pages (set_display_page i _)) with (pages i).
  fold k. split.
  - intros H0. unfold page_count in H0.
    assert (Hnil : pages i = []) by (destruct (pages i); [done|simpl in H0; lia]).
    assert (Hk : k = 0) by (subst k; unfold page_count; rewrite Hnil; simpl; lia).
    by rewrite Hk, Hnil.
  - intros H1. assert (Hk : 0 <= k < page_count i) by (subst k; lia).
    split; [done|].
    destruct (lookup_lt_is_Some_2 (pages i) (Z.to_nat k)) as [page Hpage].
    { unfold page_count in Hk. lia. }
    exists page. by rewrite Hpage.
Qed.

End InterfaceShows.

Section InterfaceFollows.
Import PaginatorInterface.

Lemma page_count_paginator i j : paginator i = paginator j -> page_count i = page_count j.
Proof. unfold page_count, pages. by intros ->. Qed.

Lemma page_count_eq i :
  page_count i
  = Z.of_nat (length (Paginator._pages (paginator i)))
    + (if Z.of_nat (length (Paginator._current_page (paginator i))) >? 1 then 1 else 0).
Proof.
  unfold page_count, pages. destruct (_ >? 1); [|lia].
  rewrite List.length_app. simpl. lia.
Qed.

Lemma add_line_result l e p p' :
  Paginator.add_line l e p = Ok tt p' ->
  exists page,
    Paginator._current_page p' = page ++ [l] ++ (if e then [EmptyString] else [])
    /\ ((Paginator._pages p' = Paginator._pages p /\ page = Paginator._current_page p)
        \/ (exists closed, Paginator._pages p' = Paginator._pages p ++ [closed])).
Proof.
  unfold Paginator.add_line. destruct (_ >? _); [discriminate|].
  destruct (_ >? _); intros [= <-].
  - exists (Paginator._current_page (Paginator.close_page p)).
    split; [destruct e; simpl; by rewrite <- ?app_assoc|].
    right. eexists. destruct e; simpl; apply close_page_pages.
  - exists (Paginator._current_page p).
    split; [destruct e; simpl; by rewrite <- ?app_assoc|].
    left. by destruct e.
Qed.

(** The number of pages that the interface shows does not go down when a
    line is added to the paginator. *)
Lemma page_count_add_line i j l e :
  Paginator.add_line l e (paginator i) = Ok tt (paginator j) ->
  page_count i <= page_count j.
Proof.
  intros Hrun. rewrite !page_count_eq.
  destruct (add_line_result l e _ _ Hrun) as (page & Hcur & [[Hp Hpage]|[closed Hp]]).
  - rewrite Hp, Hcur, Hpage, !List.length_app.
    set (n := length (Paginator._current_page (paginator i))).
    set (m := (length [l] + length (if e then [EmptyString] else []))%nat).
    destruct (Z.of_nat n >? 1) eqn:H1; [|destruct (Z.of_nat (n + m) >? 1); lia].
    apply gtb_true_lt in H1. rewrite (lt_gtb_true (Z.of_nat (n + m)) 1); lia.
  - rewrite Hp, List.length_app. simpl length.
    destruct (_ >? 1); destruct (_ >? 1); lia.
Qed.

(** X9. When [add_line] of the interface returns, the interface shows at
    least as many pages as before. If it was on the last page, reading
    [display_page] afterwards gives the last page of the pages there are
    now; if it was on another page, or there was no page, it gives the
    index that it gave before. *)
Theorem interface_add_line_follows
    (i i' : PaginatorInterface.t) (l : string) (e : bool) :
  add_line l e i = Ok tt i' ->
  let before := fst (display_page i) in
  let after := fst (display_page i') in
  page_count i <= page_count i'
  /\ Paginator.add_line l e (paginator i) = Ok tt (paginator i')
  /\ (before + 1 = page_count i -> after = page_count i' - 1)
  /\ (before + 1 <> page_count i -> after = before).
Proof.
  unfold add_line, display_page.
  change (page_count (set_display_page i _)) with (page_count i).
  change (paginator (set_display_page i _)) with (paginator i).
  destruct (Paginator.add_line l e (paginator i)) as [[] p|x p] eqn:Hrun; [|discriminate].
  set (before := Z.max 0 (Z.min (page_count i - 1) (_display_page i))).
  set (j := set_paginator (set_display_page i before) p).
  assert (Hmono : page_count i <= page_count j).
  { apply (page_count_add_line i j l e). exact Hrun. }
  pose proof (page_count_nonneg i) as H0.
  destruct (before + 1 =? page_count i) eqn:Hlast; intros [= <-]; simpl.
  - apply Z.eqb_eq in Hlast.
    change (page_count (set_display_page j (page_count j))) with (page_count j).
    split; [done|]. split; [done|]. split; [lia|lia].
  - apply Z.eqb_neq in Hlast. split; [done|]. split; [done|].
    split; [lia|]. intros _.
    change (_display_page j) with before. subst before. lia.
Qed.

Lemma interface_add_line_follows_witness :
  let p := Paginator.__init__ (Some "```"%string) (Some "```"%string) 20 newline in
  let i := mk 0 None (state_of (Paginator.add_line "0123456789" false p))
             None 7200 false false in
  exists i',
    add_line "abcdefghij" false i = Ok tt i'
    /\ page_count i = 1 /\ page_count i' = 2
    /\ fst (display_page i) = 0 /\ fst (display_page i') = 1.
Proof.
  intros p i.
  destruct (add_line "abcdefghij" false i) as [[] i'|x i'] eqn:Hrun; [|discriminate].
  exists i'. split; [reflexivity|].
  pose proof (interface_add_line_follows i i' "abcdefghij" false Hrun) as (_ & _ & Hlast & _).
  injection Hrun as <-.
  split; [reflexivity|]. split; [reflexivity|]. split; [reflexivity|].
  rewrite Hlast; reflexivity.
Defined.

End InterfaceFollows.
